(** * vj4: request-handling core (view/base.py) and the problem-list
      controller (controller/problemlist.py)

    A shallow embedding of the session layer, the permission check, the
    view dispatch wrapper, the POST operation dispatcher, the CSRF guard
    and the problem-list facade, with the properties the specification
    states about them.

    Python values are embedded as follows: [int] is [Z] (unbounded, so [&]
    is [Z.land]); [str] is [string]; [bytes] is [list byte]; a [dict] with
    string keys is a [gmap string _]; [None] as the result of [dict.get] is
    [None : option _]; an exception is a constructor of [exn], and a
    computation that can raise returns a [result]. *)

From Stdlib Require Import ZArith NArith String Ascii List Bool Lia.
From Stdlib Require Import Strings.Byte.
From stdpp Require Import base option gmap strings list fin_maps pretty.

Local Open Scope Z_scope.
Local Open Scope string_scope.
Local Open Scope list_scope.

(** ** Python values and exceptions *)

Inductive value :=
| VNone
| VBool (b : bool)
| VInt (n : Z)
| VStr (s : string)
| VBytes (b : list byte)
| VDatetime (t : Z).  (* a datetime, as seconds since the epoch in UTC *)

Global Instance byte_eq_dec : EqDecision byte := Byte.byte_eq_dec.

(** [vj4.error]: the classes derived from [UserFacingError] that the two
    files raise, and one constructor for every other subclass a handler
    may raise. *)
Inductive user_facing_error :=
| DomainNotFoundError (domain_id : string)
| PermissionError (perm : Z)
| PrivilegeError (priv : Z)
| CsrfTokenError
| InvalidOperationError (operation : string)
| OtherUserFacingError (name : string) (args : list value).

Inductive exn :=
| UserFacing (e : user_facing_error)
| KeyError (key : string)
| AttributeError (attr : string)
| TypeError (msg : string)
| OtherError (name : string).  (* store failures and whatever else *)

Inductive result (A : Type) :=
| Ok (a : A)
| Raise (e : exn).
Arguments Ok {A} a.
Arguments Raise {A} e.

(** Truthiness, [bool(x)], of the values the code tests. *)
Definition truthy_str (s : string) : bool :=
  match s with EmptyString => false | _ => true end.

Definition truthy_opt_str (o : option string) : bool :=
  match o with Some s => truthy_str s | None => false end.

Definition truthy_dict {V} (d : gmap string V) : bool :=
  negb (bool_decide (d = ∅)).

Definition truthy_opt_dict {V} (o : option (gmap string V)) : bool :=
  match o with Some d => truthy_dict d | None => false end.

Lemma truthy_str_spec s : truthy_str s = true <-> s <> "".
Proof. destruct s; simpl; split; congruence. Qed.

Lemma truthy_dict_spec {V} (d : gmap string V) : truthy_dict d = true <-> d <> ∅.
Proof.
  unfold truthy_dict. rewrite negb_true_iff, bool_decide_eq_false. tauto.
Qed.

Lemma truthy_dict_empty {V} : truthy_dict (∅ : gmap string V) = false.
Proof. reflexivity. Qed.

(** ** Permission resolver: [ViewBase.has_perm] and its siblings *)

Module Perm.
Section Perm.
(** A role is whatever [vj4.model.builtin] uses for it; the default role
    and the empty permission mask are constants of that module. *)
Context {Role : Type} `{Countable Role}.
Variable ROLE_DEFAULT : Role.
Variable PERM_NONE : Z.

(** The documents [self.user] and [self.domain], with the fields the
    checks read: [user['_id']], [user['roles']], [user['priv']],
    [domain['owner_uid']], [domain['roles']]. *)
Record User := { user_id : Z; user_roles : gmap string Role; user_priv : Z }.
Record Domain := { owner_uid : Z; domain_roles : gmap Role Z }.

Record ctx := { user : User; domain_id : string; domain : Domain }.

Definition role_of (self : ctx) : Role :=
  default ROLE_DEFAULT (user_roles (user self) !! domain_id self).

Definition mask_of (self : ctx) : Z :=
  default PERM_NONE (domain_roles (domain self) !! role_of self).

Definition has_perm (self : ctx) (perm : Z) : bool :=
  let role := role_of self in
  let mask := default PERM_NONE (domain_roles (domain self) !! role) in
  bool_decide (Z.land perm mask = perm)
  || bool_decide (owner_uid (domain self) = user_id (user self)).

Definition check_perm (self : ctx) (perm : Z) : result unit :=
  if negb (has_perm self perm) then Raise (UserFacing (PermissionError perm))
  else Ok tt.

Definition has_priv (self : ctx) (priv : Z) : bool :=
  bool_decide (Z.land priv (user_priv (user self)) = priv).

Definition check_priv (self : ctx) (priv : Z) : result unit :=
  if negb (has_priv self priv) then Raise (UserFacing (PrivilegeError priv))
  else Ok tt.

(** The mask as the specification words it: the domain's entry for the
    user's role in that domain, the role falling back to the default
    role and the mask to the no-permission mask. *)
Inductive effective_role (self : ctx) : Role -> Prop :=
| role_assigned r :
    user_roles (user self) !! domain_id self = Some r -> effective_role self r
| role_default :
    user_roles (user self) !! domain_id self = None ->
    effective_role self ROLE_DEFAULT.

Inductive effective_mask (self : ctx) : Z -> Prop :=
| mask_declared r m :
    effective_role self r -> domain_roles (domain self) !! r = Some m ->
    effective_mask self m
| mask_none r :
    effective_role self r -> domain_roles (domain self) !! r = None ->
    effective_mask self PERM_NONE.

Lemma effective_role_fun self r : effective_role self r <-> r = role_of self.
Proof.
  unfold role_of. split.
  - intros [r' Hr | Hr]; rewrite Hr; reflexivity.
  - intros ->. destruct (user_roles (user self) !! domain_id self) eqn:E.
    + now apply role_assigned.
    + now apply role_default.
Qed.

Lemma effective_mask_fun self m : effective_mask self m <-> m = mask_of self.
Proof.
  unfold mask_of. split.
  - intros [r m' Hr Hm | r Hr Hm]; apply effective_role_fun in Hr; subst r;
      rewrite Hm; reflexivity.
  - intros ->. destruct (domain_roles (domain self) !! role_of self) eqn:E.
    + eapply mask_declared; [apply effective_role_fun; reflexivity | exact E].
    + eapply mask_none; [apply effective_role_fun; reflexivity | exact E].
Qed.

Lemma has_perm_unfold self perm :
  has_perm self perm =
  bool_decide (Z.land perm (mask_of self) = perm)
  || bool_decide (owner_uid (domain self) = user_id (user self)).
Proof. reflexivity. Qed.

(** C2. The permission check passes exactly when the requested bits are
    all in the mask of the user's role in the domain (default role, then
    no-permission mask, when absent) or the user owns the domain; an
    owner passes for every [perm]. *)
Theorem has_perm_iff (self : ctx) (perm : Z) :
  (has_perm self perm = true <->
   (exists mask, effective_mask self mask /\ Z.land perm mask = perm)
   \/ user_id (user self) = owner_uid (domain self))
  /\ (user_id (user self) = owner_uid (domain self) ->
      forall perm', has_perm self perm' = true).
Proof.
  split.
  - rewrite has_perm_unfold, orb_true_iff, !bool_decide_eq_true. split.
    + intros [Hm | Ho]; [left | right; congruence].
      exists (mask_of self). split; [apply effective_mask_fun; reflexivity | exact Hm].
    + intros [(m & Hm & Hp) | Ho]; [left | right; congruence].
      apply effective_mask_fun in Hm. subst m. exact Hp.
  - intros Ho perm'. rewrite has_perm_unfold, orb_true_iff, !bool_decide_eq_true.
    right. congruence.
Qed.

Lemma check_perm_raises self perm :
  check_perm self perm = Raise (UserFacing (PermissionError perm)) <->
  has_perm self perm = false.
Proof.
  unfold check_perm. destruct (has_perm self perm); simpl; split; congruence.
Qed.

(** *** The guards [require_perm] and [require_priv], and how bits combine *)

(** [require_perm(perm)(func)] and [require_priv(priv)(func)], applied to
    [self], the positional and the keyword arguments. *)
Definition require_perm {A} (perm : Z)
    (func : ctx -> list value -> gmap string value -> result A)
    (self : ctx) (args : list value) (kwargs : gmap string value) : result A :=
  match check_perm self perm with
  | Raise e => Raise e
  | Ok _ => func self args kwargs
  end.

Definition require_priv {A} (priv : Z)
    (func : ctx -> list value -> gmap string value -> result A)
    (self : ctx) (args : list value) (kwargs : gmap string value) : result A :=
  match check_priv self priv with
  | Raise e => Raise e
  | Ok _ => func self args kwargs
  end.

Lemma land_lor_covered (p q m : Z) :
  Z.land (Z.lor p q) m = Z.lor p q <-> Z.land p m = p /\ Z.land q m = q.
Proof.
  split.
  - intros Hpq.
    assert (Hbit : forall n, Z.testbit p n || Z.testbit q n = true ->
                             Z.testbit m n = true).
    { intros n Hn. apply (f_equal (fun x => Z.testbit x n)) in Hpq.
      rewrite Z.land_spec, Z.lor_spec, Hn in Hpq. exact Hpq. }
    split; apply Z.bits_inj'; intros n _; rewrite Z.land_spec.
    + destruct (Z.testbit p n) eqn:Ep; [|reflexivity].
      rewrite Hbit by (rewrite Ep; reflexivity). reflexivity.
    + destruct (Z.testbit q n) eqn:Eq; [|reflexivity].
      rewrite Hbit by (rewrite Eq; apply orb_true_r). reflexivity.
  - intros [Hp Hq]. rewrite Z.land_lor_distr_l, Hp, Hq. reflexivity.
Qed.

(** Asking for the bits of [p] and [q] together passes exactly when asking
    for each passes: a permission word is checked bit by bit, and the
    owner's bypass covers every word. *)
Theorem has_perm_lor (self : ctx) (p q : Z) :
  has_perm self (Z.lor p q) = has_perm self p && has_perm self q.
Proof.
  rewrite !has_perm_unfold.
  destruct (bool_decide (owner_uid (domain self) = user_id (user self)));
    [rewrite !orb_true_r; reflexivity | rewrite !orb_false_r].
  apply eq_true_iff_eq.
  rewrite andb_true_iff, !bool_decide_eq_true. apply land_lor_covered.
Qed.


(** Two permission guards around a handler let it run exactly when the
    user holds the bits of both; otherwise the outer guard's error is
    raised if its bits are missing, else the inner guard's, and the
    handler is not called. *)
Theorem require_perm_stack {A} (p q : Z)
    (func : ctx -> list value -> gmap string value -> result A)
    (self : ctx) (args : list value) (kwargs : gmap string value) :
  require_perm p (require_perm q func) self args kwargs =
  if has_perm self (Z.lor p q) then func self args kwargs
  else Raise (UserFacing (PermissionError (if has_perm self p then q else p))).
Proof.
  rewrite has_perm_lor. unfold require_perm, check_perm.
  destruct (has_perm self p), (has_perm self q); reflexivity.
Qed.

(** A privilege guard outside a permission guard: the handler runs when
    both hold; a missing privilege is reported first, also to the owner of
    the domain. *)
Theorem require_priv_perm {A} (priv perm : Z)
    (func : ctx -> list value -> gmap string value -> result A)
    (self : ctx) (args : list value) (kwargs : gmap string value) :
  require_priv priv (require_perm perm func) self args kwargs =
  if has_priv self priv then
    if has_perm self perm then func self args kwargs
    else Raise (UserFacing (PermissionError perm))
  else Raise (UserFacing (PrivilegeError priv)).
Proof.
  unfold require_priv, require_perm, check_priv, check_perm.
  destruct (has_priv self priv), (has_perm self perm); reflexivity.
Qed.
End Perm.

(** C2 on a domain whose owner holds no role in it: the default role has
    no entry, the mask is the empty one, and the owner still passes for
    every bit, while another user passes for none. *)
Definition owned_domain : @Domain string _ _ :=
  {| owner_uid := 7; domain_roles := ∅ |}.

Definition user_of (uid : Z) : @User string :=
  {| user_id := uid; user_roles := ∅; user_priv := 0 |}.

Lemma has_perm_iff_witness :
  has_perm "default" 0
    {| user := user_of 7; domain_id := "system"; domain := owned_domain |} 255 = true
  /\ has_perm "default" 0
       {| user := user_of 8; domain_id := "system"; domain := owned_domain |} 255 = false.
Proof.
  split.
  - apply (proj2 (has_perm_iff "default" 0
                    {| user := user_of 7; domain_id := "system";
                       domain := owned_domain |} 255)).
    reflexivity.
  - apply not_true_is_false. intros Hp.
    apply (proj1 (has_perm_iff "default" 0
                    {| user := user_of 8; domain_id := "system";
                       domain := owned_domain |} 255)) in Hp.
    destruct Hp as [(mask & Hmask & Hland) | Howner]; [|discriminate].
    apply effective_mask_fun in Hmask. subst mask. discriminate.
Defined.

End Perm.

(** ** Computations that read and change a state and may raise

    An exception leaves the state as it was at the point of the raise. *)

Definition M (S A : Type) : Type := S -> result A * S.

Definition ret {S A} (a : A) : M S A := fun s => (Ok a, s).

Definition raise {S A} (e : exn) : M S A := fun s => (Raise e, s).

Definition bind {S A B} (m : M S A) (k : A -> M S B) : M S B :=
  fun s => match m s with
           | (Ok a, s') => k a s'
           | (Raise e, s') => (Raise e, s')
           end.

Notation "'let*' x ':=' m 'in' k" := (bind m (fun x => k))
  (at level 10, x name, m at level 100, k at level 200, only parsing).
Notation "'let*' ' p ':=' m 'in' k" := (bind m (fun x => match x with p => k end))
  (at level 10, p pattern, m at level 100, k at level 200, only parsing).

Lemma bind_ok {S A B} (m : M S A) (k : A -> M S B) s a s' :
  m s = (Ok a, s') -> bind m k s = k a s'.
Proof. intros E. unfold bind. rewrite E. reflexivity. Qed.

Lemma bind_raise {S A B} (m : M S A) (k : A -> M S B) s e s' :
  m s = (Raise e, s') -> bind m k s = (Raise e, s').
Proof. intros E. unfold bind. rewrite E. reflexivity. Qed.

Lemma bind_ret {S A B} (a : A) (k : A -> M S B) s : bind (ret a) k s = k a s.
Proof. reflexivity. Qed.

(** A computation run from a state in [P] ends in [Q] when it returns, and
    in [E] when it raises a user-facing error; other exceptions are left
    unconstrained. *)
Definition triple {S A} (P : S -> Prop) (m : M S A)
    (Q : A -> S -> Prop) (E : user_facing_error -> S -> Prop) : Prop :=
  forall s r s', P s -> m s = (r, s') ->
    match r with
    | Ok a => Q a s'
    | Raise (UserFacing e) => E e s'
    | Raise _ => True
    end.

Lemma triple_ret {S A} (P : S -> Prop) (a : A) E :
  triple P (ret a) (fun b s => b = a /\ P s) E.
Proof. intros s r s' HP [= <- <-]. split; [reflexivity | exact HP]. Qed.

Lemma triple_raise {S A} (P : S -> Prop) (x : exn) (Q : A -> S -> Prop) :
  triple P (raise x) Q (fun e s => x = UserFacing e /\ P s).
Proof.
  intros s r s' HP [= <- <-]. destruct x; try exact I.
  split; [reflexivity | exact HP].
Qed.

Lemma triple_bind {S A B} (P : S -> Prop) (m : M S A) (k : A -> M S B)
    (R : A -> S -> Prop) (Q : B -> S -> Prop) E :
  triple P m R E -> (forall a, triple (R a) (k a) Q E) -> triple P (bind m k) Q E.
Proof.
  intros Hm Hk s r s' HP. unfold bind.
  destruct (m s) as [[a|x] s1] eqn:Em.
  - intros Ek. exact (Hk a s1 r s' (Hm s (Ok a) s1 HP Em) Ek).
  - intros [= <- <-]. exact (Hm s (Raise x) s1 HP Em).
Qed.

Lemma triple_weaken {S A} (P P' : S -> Prop) (m : M S A)
    (Q Q' : A -> S -> Prop) (E E' : user_facing_error -> S -> Prop) :
  triple P m Q E ->
  (forall s, P' s -> P s) ->
  (forall a s, Q a s -> Q' a s) ->
  (forall e s, E e s -> E' e s) ->
  triple P' m Q' E'.
Proof.
  intros Hm HP HQ HE s r s' Hs Em. specialize (Hm s r s' (HP s Hs) Em).
  destruct r as [a|[e| | | |]]; auto.
Qed.

(** ** Session manager: [update_session], [delete_session], [clear_cookies] *)

Module Session.

(** [vj4.model.token]: the two session classes. *)
Inductive token_type := TYPE_SAVED_SESSION | TYPE_UNSAVED_SESSION.

(** [options.options], the fields read here. *)
Record Options := {
  saved_session_expire_seconds : Z;
  unsaved_session_expire_seconds : Z;
  cookie_domain : option string;
  cookie_secure : bool;
  ip_header : string
}.

(** [self.request]: the cookie mapping, the headers (looked up under the
    name the code uses) and the transport's peer name. *)
Record Request := {
  cookies : gmap string string;
  headers : gmap string string;
  peername : string * Z
}.

(** One entry of the response's cookie jar: the value and the attributes
    [set_cookie] was given. *)
Record cookie := {
  c_value : string;
  c_expires : option string;
  c_max_age : option Z;
  c_domain : option string;
  c_secure : bool;
  c_httponly : bool
}.

(** The calls issued to the Token Store, in order. *)
Inductive token_call :=
| CallUpdate (sid : string) (ty : token_type) (ttl : Z) (fields : gmap string value)
| CallAdd (ty : token_type) (ttl : Z) (fields : gmap string value)
| CallDelete (sid : string) (ty : token_type).

Definition is_write (c : token_call) : bool :=
  match c with CallUpdate _ _ _ _ | CallAdd _ _ _ => true | CallDelete _ _ => false end.

Definition is_add (c : token_call) : bool :=
  match c with CallAdd _ _ _ => true | _ => false end.

Section Session.

(** The Token Store ([vj4.model.token]) is an external collaborator: any
    store with these three operations, each of which may fail. *)
Variable TokenStore : Type.
Variable token_update :
  TokenStore -> string -> token_type -> Z -> gmap string value ->
  result (option (gmap string value)) * TokenStore.
Variable token_add :
  TokenStore -> token_type -> Z -> gmap string value ->
  result (string * gmap string value) * TokenStore.
Variable token_delete :
  TokenStore -> string -> token_type -> result bool * TokenStore.

(** [email.utils.formatdate(timestamp, usegmt=True)]. *)
Variable formatdate : Z -> string.

Variable options : Options.
Variable request : Request.

(** What a call can change: the store, the trace of calls made to it, and
    the cookies of [self.response]. *)
Record state := {
  tokens : TokenStore;
  calls : list token_call;
  response_cookies : gmap string cookie
}.

Definition token_update_call sid ty ttl fields : M state (option (gmap string value)) :=
  fun st =>
    let '(r, tok) := token_update (tokens st) sid ty ttl fields in
    (r, {| tokens := tok;
           calls := calls st ++ [CallUpdate sid ty ttl fields];
           response_cookies := response_cookies st |}).

Definition token_add_call ty ttl fields : M state (string * gmap string value) :=
  fun st =>
    let '(r, tok) := token_add (tokens st) ty ttl fields in
    (r, {| tokens := tok;
           calls := calls st ++ [CallAdd ty ttl fields];
           response_cookies := response_cookies st |}).

Definition token_delete_call sid ty : M state bool :=
  fun st =>
    let '(r, tok) := token_delete (tokens st) sid ty in
    (r, {| tokens := tok;
           calls := calls st ++ [CallDelete sid ty];
           response_cookies := response_cookies st |}).

(** The keyword arguments of [set_cookie] the code passes. *)
Record cookie_kwargs := {
  kw_expires : option string;
  kw_max_age : option Z;
  kw_domain : option string;
  kw_secure : bool;
  kw_httponly : bool
}.

Definition make_cookie (v : string) (kw : cookie_kwargs) : cookie :=
  {| c_value := v; c_expires := kw_expires kw; c_max_age := kw_max_age kw;
     c_domain := kw_domain kw; c_secure := kw_secure kw; c_httponly := kw_httponly kw |}.

Definition set_cookie (name v : string) (kw : cookie_kwargs) : M state unit :=
  fun st =>
    (Ok tt, {| tokens := tokens st; calls := calls st;
               response_cookies := <[name := make_cookie v kw]> (response_cookies st) |}).

Definition headers_get (name : string) : value :=
  from_option VStr VNone (headers request !! name).

Definition remote_ip : value :=
  if truthy_str (ip_header options) then headers_get (ip_header options)
  else VStr (fst (peername request)).

(** The cookie that overwrites one: empty value, expiry at the epoch. *)
Definition cleared_cookie : cookie :=
  make_cookie "" {| kw_expires := Some (formatdate 0); kw_max_age := None;
                    kw_domain := cookie_domain options;
                    kw_secure := cookie_secure options; kw_httponly := true |}.

Fixpoint clear_cookies (names : list string) : M state unit :=
  match names with
  | [] => ret tt
  | name :: rest =>
      let* _ := (if bool_decide (is_Some (cookies request !! name))
                 then set_cookie name ""
                        {| kw_expires := Some (formatdate 0); kw_max_age := None;
                           kw_domain := cookie_domain options;
                           kw_secure := cookie_secure options; kw_httponly := true |}
                 else ret tt) in
      clear_cookies rest
  end.

(** [calendar.timegm(session['expire_at'].utctimetuple())]. *)
Definition expire_timestamp (session : gmap string value) : M state Z :=
  match session !! "expire_at" with
  | Some (VDatetime t) => ret t
  | Some _ => raise (AttributeError "utctimetuple")
  | None => raise (KeyError "expire_at")
  end.

Definition update_session (new_saved : bool) (kwargs : gmap string value)
  : M state (gmap string value) :=
  let sid := cookies request !! "sid" in
  let save_cookie := cookies request !! "save" in
  let save := if negb (truthy_opt_str sid) then new_saved
              else truthy_opt_str save_cookie in
  let token_type := if save then TYPE_SAVED_SESSION else TYPE_UNSAVED_SESSION in
  let session_expire_seconds :=
    if save then saved_session_expire_seconds options
    else unsaved_session_expire_seconds options in
  let* session :=
    (match sid with
     | Some s =>
         if truthy_str s then
           token_update_call s token_type session_expire_seconds
             (<["update_ua" := headers_get "User-Agent"]>
                (<["update_ip" := remote_ip]> kwargs))
         else ret None
     | None => ret None
     end) in
  let* '(sid, session) :=
    (if truthy_dict kwargs && negb (truthy_opt_dict session) then
       let* '(new_sid, new_session) :=
         token_add_call token_type session_expire_seconds
           (<["create_ua" := headers_get "User-Agent"]>
              (<["create_ip" := remote_ip]> kwargs)) in
       ret (Some new_sid, Some new_session)
     else ret (sid, session)) in
  match session with
  | Some doc =>
      if truthy_dict doc then
        let cookie_kwargs :=
          {| kw_expires := None; kw_max_age := None;
             kw_domain := cookie_domain options;
             kw_secure := cookie_secure options; kw_httponly := true |} in
        let* cookie_kwargs :=
          (if save then
             let* timestamp := expire_timestamp doc in
             let cookie_kwargs :=
               {| kw_expires := Some (formatdate timestamp);
                  kw_max_age := Some session_expire_seconds;
                  kw_domain := kw_domain cookie_kwargs;
                  kw_secure := kw_secure cookie_kwargs;
                  kw_httponly := kw_httponly cookie_kwargs |} in
             let* _ := set_cookie "save" "1" cookie_kwargs in
             ret cookie_kwargs
           else ret cookie_kwargs) in
        (* [sid] is a string here, the cookie's or the one [token.add]
           returned; [set_cookie] would write [str(None)] otherwise *)
        let* _ := set_cookie "sid" (default "None" sid) cookie_kwargs in
        ret doc
      else
        let* _ := clear_cookies ["sid"; "save"] in
        ret ∅
  | None =>
      let* _ := clear_cookies ["sid"; "save"] in
      ret ∅
  end.

Definition delete_session : M state unit :=
  let sid := cookies request !! "sid" in
  let save := cookies request !! "save" in
  let* _ :=
    (match sid with
     | Some s =>
         if truthy_str s then
           let token_type := if truthy_opt_str save then TYPE_SAVED_SESSION
                             else TYPE_UNSAVED_SESSION in
           let* _ := token_delete_call s token_type in
           ret tt
         else ret tt
     | None => ret tt
     end) in
  clear_cookies ["sid"; "save"].

(** *** Properties of the session manager *)

(** The jar after [clear_cookies names]: every listed name the request
    carries is overwritten by the cleared cookie, in order. *)
Definition cleared_jar (names : list string) (jar : gmap string cookie)
  : gmap string cookie :=
  fold_left
    (fun j name => if bool_decide (is_Some (cookies request !! name))
                   then <[name := cleared_cookie]> j else j)
    names jar.

Lemma clear_cookies_run names st :
  clear_cookies names st =
  (Ok tt, {| tokens := tokens st; calls := calls st;
             response_cookies := cleared_jar names (response_cookies st) |}).
Proof.
  revert st. induction names as [|name rest IH]; intros st.
  - destruct st; reflexivity.
  - cbn [clear_cookies]. unfold bind at 1.
    destruct (bool_decide (is_Some (cookies request !! name))) eqn:E.
    + unfold set_cookie. rewrite IH. cbn. rewrite E. reflexivity.
    + unfold ret. rewrite IH. cbn. rewrite E. reflexivity.
Qed.

Lemma clear_step_lookup (jar : gmap string cookie) n name :
  (if bool_decide (is_Some (cookies request !! n))
   then <[n := cleared_cookie]> jar else jar) !! name =
  if bool_decide (name = n /\ is_Some (cookies request !! name))
  then Some cleared_cookie else jar !! name.
Proof.
  destruct (decide (name = n)) as [->|Hne].
  - destruct (bool_decide (is_Some (cookies request !! n))) eqn:E.
    + apply bool_decide_eq_true in E.
      rewrite lookup_insert_eq, bool_decide_eq_true_2; [reflexivity | split; auto].
    + apply bool_decide_eq_false in E.
      rewrite bool_decide_eq_false_2; [reflexivity | tauto].
  - rewrite (bool_decide_eq_false_2 (name = n /\ _)) by tauto.
    destruct (bool_decide (is_Some (cookies request !! n))); [|reflexivity].
    apply lookup_insert_ne. congruence.
Qed.

Lemma cleared_jar_lookup jar name :
  cleared_jar ["sid"; "save"] jar !! name =
  if bool_decide ((name = "sid" \/ name = "save") /\ is_Some (cookies request !! name))
  then Some cleared_cookie else jar !! name.
Proof.
  unfold cleared_jar. cbn [fold_left]. rewrite !clear_step_lookup.
  destruct (decide (is_Some (cookies request !! name))) as [Hin|Hout].
  - destruct (decide (name = "save")) as [Hsave|Hsave].
    + rewrite !bool_decide_eq_true_2; auto.
    + rewrite (bool_decide_eq_false_2 (name = "save" /\ _)) by tauto.
      destruct (decide (name = "sid")) as [Hsid|Hsid].
      * rewrite !bool_decide_eq_true_2; auto.
      * rewrite !bool_decide_eq_false_2; tauto.
  - rewrite !bool_decide_eq_false_2; tauto.
Qed.

(** The calls a run added to the trace. *)
Definition new_calls (st st' : state) : list token_call :=
  drop (length (calls st)) (calls st').

(** The mode [update_session] renews against: the class the [save] cookie
    infers. *)
Definition inferred_type : token_type :=
  if truthy_opt_str (cookies request !! "save") then TYPE_SAVED_SESSION
  else TYPE_UNSAVED_SESSION.

Definition ttl_of (ty : token_type) : Z :=
  match ty with
  | TYPE_SAVED_SESSION => saved_session_expire_seconds options
  | TYPE_UNSAVED_SESSION => unsaved_session_expire_seconds options
  end.

Definition update_fields (kwargs : gmap string value) : gmap string value :=
  <["update_ua" := headers_get "User-Agent"]> (<["update_ip" := remote_ip]> kwargs).

Definition create_fields (kwargs : gmap string value) : gmap string value :=
  <["create_ua" := headers_get "User-Agent"]> (<["create_ip" := remote_ip]> kwargs).

(** A run of [update_session] that found a live session under the [sid]
    cookie: the cookie is non-empty and the renewal returned a non-empty
    document. *)
Definition resolved (kwargs : gmap string value) (st : state) : Prop :=
  exists s doc tok,
    cookies request !! "sid" = Some s /\ s <> "" /\
    token_update (tokens st) s inferred_type (ttl_of inferred_type)
      (update_fields kwargs) = (Ok (Some doc), tok) /\ doc <> ∅.

Lemma drop_length_app {A} (l k : list A) : drop (length l) (l ++ k) = k.
Proof. induction l; simpl; auto. Qed.

Lemma drop_length_self {A} (l : list A) : drop (length l) l = [].
Proof. induction l; simpl; auto. Qed.

(** The class a run works with: inferred from the [save] cookie when the
    request carries a non-empty [sid], else chosen by [new_saved]. *)
Definition session_mode (new_saved : bool) : token_type :=
  if truthy_opt_str (cookies request !! "sid") then inferred_type
  else if new_saved then TYPE_SAVED_SESSION else TYPE_UNSAVED_SESSION.

(** The last part of [update_session]: from [if session:] on. *)
Definition emit_cookies (save : bool) (session_expire_seconds : Z)
    (sid : option string) (session : option (gmap string value))
  : M state (gmap string value) :=
  match session with
  | Some doc =>
      if truthy_dict doc then
        let cookie_kwargs :=
          {| kw_expires := None; kw_max_age := None;
             kw_domain := cookie_domain options;
             kw_secure := cookie_secure options; kw_httponly := true |} in
        let* cookie_kwargs :=
          (if save then
             let* timestamp := expire_timestamp doc in
             let cookie_kwargs :=
               {| kw_expires := Some (formatdate timestamp);
                  kw_max_age := Some session_expire_seconds;
                  kw_domain := kw_domain cookie_kwargs;
                  kw_secure := kw_secure cookie_kwargs;
                  kw_httponly := kw_httponly cookie_kwargs |} in
             let* _ := set_cookie "save" "1" cookie_kwargs in
             ret cookie_kwargs
           else ret cookie_kwargs) in
        let* _ := set_cookie "sid" (default "None" sid) cookie_kwargs in
        ret doc
      else
        let* _ := clear_cookies ["sid"; "save"] in
        ret ∅
  | None =>
      let* _ := clear_cookies ["sid"; "save"] in
      ret ∅
  end.

Definition is_saved (ty : token_type) : bool :=
  match ty with TYPE_SAVED_SESSION => true | TYPE_UNSAVED_SESSION => false end.

Lemma update_session_unfold new_saved kwargs :
  update_session new_saved kwargs =
  let sid := cookies request !! "sid" in
  let ty := session_mode new_saved in
  let* session :=
    (if truthy_opt_str sid then
       token_update_call (default "" sid) ty (ttl_of ty) (update_fields kwargs)
     else ret None) in
  let* '(sid, session) :=
    (if truthy_dict kwargs && negb (truthy_opt_dict session) then
       let* '(new_sid, new_session) :=
         token_add_call ty (ttl_of ty) (create_fields kwargs) in
       ret (Some new_sid, Some new_session)
     else ret (sid, session)) in
  emit_cookies (is_saved ty) (ttl_of ty) sid session.
Proof.
  unfold update_session, session_mode, inferred_type, emit_cookies,
    update_fields, create_fields.
  destruct (cookies request !! "sid") as [s|]; cbn [truthy_opt_str negb default].
  - destruct (truthy_str s); cbn [negb];
      [destruct (truthy_opt_str (cookies request !! "save")) | destruct new_saved];
      reflexivity.
  - destruct new_saved; reflexivity.
Qed.

Lemma emit_cookies_store save ttl sid session st r st' :
  emit_cookies save ttl sid session st = (r, st') ->
  tokens st' = tokens st /\ calls st' = calls st.
Proof.
  unfold emit_cookies.
  assert (Hclear : forall r st',
    (let* _ := clear_cookies ["sid"; "save"] in ret (∅ : gmap string value)) st
      = (r, st') -> tokens st' = tokens st /\ calls st' = calls st).
  { intros r0 st0. unfold bind. rewrite clear_cookies_run. unfold ret.
    intros [= _ <-]. split; reflexivity. }
  destruct session as [doc|]; [destruct (truthy_dict doc)|]; try apply Hclear.
  destruct save.
  - unfold bind, expire_timestamp.
    destruct (doc !! "expire_at") as [[]|]; cbn; intros [= _ <-]; split; reflexivity.
  - cbn. intros [= _ <-]. split; reflexivity.
Qed.

(** The calls one run of [update_session] issues, read off the request,
    the arguments and what the renewal returns. *)
Definition add_if_needed (ty : token_type) (kwargs : gmap string value)
    (session : option (gmap string value)) : list token_call :=
  if truthy_dict kwargs && negb (truthy_opt_dict session)
  then [CallAdd ty (ttl_of ty) (create_fields kwargs)] else [].

Definition expected_calls (new_saved : bool) (kwargs : gmap string value)
    (st : state) : list token_call :=
  let ty := session_mode new_saved in
  match cookies request !! "sid" with
  | Some s =>
      if truthy_str s then
        CallUpdate s ty (ttl_of ty) (update_fields kwargs) ::
        match token_update (tokens st) s ty (ttl_of ty) (update_fields kwargs) with
        | (Ok session, _) => add_if_needed ty kwargs session
        | (Raise _, _) => []
        end
      else add_if_needed ty kwargs None
  | None => add_if_needed ty kwargs None
  end.

Lemma add_step_calls ty kwargs sid session st r st' :
  (let* '(sid, session) :=
     (if truthy_dict kwargs && negb (truthy_opt_dict session) then
        let* '(new_sid, new_session) :=
          token_add_call ty (ttl_of ty) (create_fields kwargs) in
        ret (Some new_sid, Some new_session)
      else ret (sid, session)) in
   emit_cookies (is_saved ty) (ttl_of ty) sid session) st = (r, st') ->
  calls st' = calls st ++ add_if_needed ty kwargs session.
Proof.
  unfold add_if_needed.
  destruct (truthy_dict kwargs && negb (truthy_opt_dict session)).
  - unfold bind at 1 2. unfold token_add_call.
    destruct (token_add (tokens st) ty (ttl_of ty) (create_fields kwargs))
      as [[[new_sid new_session]|e] tok].
    + cbn [ret]. intros E. apply emit_cookies_store in E as [_ ->]. reflexivity.
    + intros [= _ <-]. reflexivity.
  - rewrite bind_ret. intros E. apply emit_cookies_store in E as [_ ->].
    symmetry. apply app_nil_r.
Qed.

Lemma update_session_calls new_saved kwargs st r st' :
  update_session new_saved kwargs st = (r, st') ->
  calls st' = calls st ++ expected_calls new_saved kwargs st.
Proof.
  rewrite update_session_unfold. cbv zeta. unfold expected_calls.
  destruct (cookies request !! "sid") as [s|] eqn:Esid; cbn [truthy_opt_str].
  - destruct (truthy_str s) eqn:Es.
    + change (default "" (Some s)) with s.
      unfold bind at 1. unfold token_update_call.
      destruct (token_update (tokens st) s (session_mode new_saved)
                  (ttl_of (session_mode new_saved)) (update_fields kwargs))
        as [[session|e] tok].
      * intros E. apply add_step_calls in E. rewrite E. cbn [calls].
        rewrite <- app_assoc. reflexivity.
      * intros [= _ <-]. reflexivity.
    + rewrite bind_ret. apply add_step_calls.
  - rewrite bind_ret. apply add_step_calls.
Qed.

(** C3. With no [sid] cookie and no extra data the call returns the empty
    session and leaves the Token Store alone: no call is issued and the
    store is unchanged. Whenever a run does create a token ([token.add]
    appears among its calls), the extra data was non-empty and no live
    session had been found under the [sid] cookie. *)
Theorem update_session_idle (new_saved : bool) (kwargs : gmap string value)
    (st : state) :
  (cookies request !! "sid" = None -> kwargs = ∅ ->
   exists st', update_session new_saved kwargs st = (Ok ∅, st')
     /\ tokens st' = tokens st /\ calls st' = calls st)
  /\ (forall r st', update_session new_saved kwargs st = (r, st') ->
       (exists c, c ∈ new_calls st st' /\ is_add c = true) ->
       kwargs <> ∅ /\ ~ resolved kwargs st).
Proof.
  split.
  - intros Hsid ->. rewrite update_session_unfold. cbv zeta. rewrite Hsid.
    cbn [truthy_opt_str]. rewrite bind_ret.
    rewrite (truthy_dict_empty (V := value)). cbn [andb]. rewrite bind_ret. unfold emit_cookies, bind.
    rewrite clear_cookies_run. unfold ret. eexists. split; [reflexivity|].
    split; reflexivity.
  - intros r st' E (c & Hc & Hadd). apply update_session_calls in E.
    unfold new_calls in Hc. rewrite E, drop_length_app in Hc.
    assert (Hneed : forall session, c ∈ add_if_needed (session_mode new_saved) kwargs session ->
              kwargs <> ∅ /\ truthy_opt_dict session = false).
    { intros session. unfold add_if_needed.
      destruct (truthy_dict kwargs) eqn:Ek; cbn [andb]; [|inversion 1].
      destruct (truthy_opt_dict session); cbn [negb]; [inversion 1|].
      intros _. split; [apply truthy_dict_spec; exact Ek | reflexivity]. }
    unfold expected_calls in Hc. unfold resolved.
    destruct (cookies request !! "sid") as [s|] eqn:Esid.
    + destruct (truthy_str s) eqn:Es.
      * assert (Hmode : session_mode new_saved = inferred_type).
        { unfold session_mode. rewrite Esid. cbn. rewrite Es. reflexivity. }
        rewrite Hmode in *. apply elem_of_cons in Hc as [-> | Hc]; [discriminate|].
        destruct (token_update (tokens st) s inferred_type (ttl_of inferred_type)
                    (update_fields kwargs)) as [[session|e] tok] eqn:Eu.
        -- apply Hneed in Hc as [Hk Hs]. split; [exact Hk|].
           intros (s' & doc & tok' & [= <-] & _ & Eu' & Hdoc).
           rewrite Eu in Eu'. injection Eu' as Es' _. subst session.
           cbn in Hs. apply truthy_dict_spec in Hdoc. congruence.
        -- inversion Hc.
      * apply Hneed in Hc as [Hk _]. split; [exact Hk|].
        intros (s' & doc & tok' & [= <-] & Hne & _). apply truthy_str_spec in Hne.
        congruence.
    + apply Hneed in Hc as [Hk _]. split; [exact Hk|].
      intros (s' & doc & tok' & [=] & _).
Qed.

(** The cookies of a live session, as emitted: a saved session's carry
    [expires] and [max_age], an unsaved session's do not. *)
Definition saved_cookie (v : string) (expire_at : Z) : cookie :=
  {| c_value := v; c_expires := Some (formatdate expire_at);
     c_max_age := Some (saved_session_expire_seconds options);
     c_domain := cookie_domain options; c_secure := cookie_secure options;
     c_httponly := true |}.

Definition unsaved_cookie (v : string) : cookie :=
  {| c_value := v; c_expires := None; c_max_age := None;
     c_domain := cookie_domain options; c_secure := cookie_secure options;
     c_httponly := true |}.

(** C6. A call with extra data that creates the session. Without a [sid]
    cookie: [new_saved=True] adds a token of the saved class and sets
    [save=1] and [sid] with [expires] and [max_age]; [new_saved=False] adds
    one of the unsaved class and sets [sid] alone, without [expires] or
    [max_age]. With a [sid] cookie whose renewal returned nothing, the
    token added is of the class inferred from the [save] cookie, whatever
    [new_saved] says. *)
Theorem update_session_create (kwargs : gmap string value) (st : state) :
  kwargs <> ∅ ->
  (cookies request !! "sid" = None ->
   (forall new_sid doc tok t,
      token_add (tokens st) TYPE_SAVED_SESSION (saved_session_expire_seconds options)
        (create_fields kwargs) = (Ok (new_sid, doc), tok) ->
      doc !! "expire_at" = Some (VDatetime t) ->
      update_session true kwargs st =
      (Ok doc,
       {| tokens := tok;
          calls := calls st ++ [CallAdd TYPE_SAVED_SESSION
                                  (saved_session_expire_seconds options)
                                  (create_fields kwargs)];
          response_cookies :=
            <["sid" := saved_cookie new_sid t]>
              (<["save" := saved_cookie "1" t]> (response_cookies st)) |}))
   /\
   (forall new_sid doc tok,
      token_add (tokens st) TYPE_UNSAVED_SESSION (unsaved_session_expire_seconds options)
        (create_fields kwargs) = (Ok (new_sid, doc), tok) ->
      doc <> ∅ ->
      update_session false kwargs st =
      (Ok doc,
       {| tokens := tok;
          calls := calls st ++ [CallAdd TYPE_UNSAVED_SESSION
                                  (unsaved_session_expire_seconds options)
                                  (create_fields kwargs)];
          response_cookies :=
            <["sid" := unsaved_cookie new_sid]> (response_cookies st) |})))
  /\
  (forall new_saved s session tok r st',
     cookies request !! "sid" = Some s -> s <> "" ->
     token_update (tokens st) s inferred_type (ttl_of inferred_type)
       (update_fields kwargs) = (Ok session, tok) ->
     truthy_opt_dict session = false ->
     update_session new_saved kwargs st = (r, st') ->
     new_calls st st' =
     [CallUpdate s inferred_type (ttl_of inferred_type) (update_fields kwargs);
      CallAdd inferred_type (ttl_of inferred_type) (create_fields kwargs)]).
Proof.
  intros Hk. apply truthy_dict_spec in Hk. split.
  - intros Hsid. split.
    + intros new_sid doc tok t Eadd Hexp.
      assert (Hdoc : truthy_dict doc = true).
      { apply truthy_dict_spec. intros ->. rewrite lookup_empty in Hexp. discriminate. }
      rewrite update_session_unfold. cbv zeta. unfold session_mode. rewrite Hsid.
      cbn [truthy_opt_str ttl_of is_saved]. rewrite bind_ret, Hk. cbn [andb negb truthy_opt_dict].
      unfold bind at 1 2. unfold token_add_call. rewrite Eadd. cbn [ret].
      unfold emit_cookies. rewrite Hdoc. unfold bind, expire_timestamp. rewrite Hexp.
      reflexivity.
    + intros new_sid doc tok Eadd Hdoc. apply truthy_dict_spec in Hdoc.
      rewrite update_session_unfold. cbv zeta. unfold session_mode. rewrite Hsid.
      cbn [truthy_opt_str ttl_of is_saved]. rewrite bind_ret, Hk. cbn [andb negb truthy_opt_dict].
      unfold bind at 1 2. unfold token_add_call. rewrite Eadd. cbn [ret].
      unfold emit_cookies. rewrite Hdoc. reflexivity.
  - intros new_saved s session tok r st' Hsid Hs Eu Hfalsy E.
    apply truthy_str_spec in Hs.
    apply update_session_calls in E. unfold new_calls. rewrite E, drop_length_app.
    unfold expected_calls.
    assert (Hmode : session_mode new_saved = inferred_type).
    { unfold session_mode. rewrite Hsid. cbn. rewrite Hs. reflexivity. }
    rewrite Hsid, Hs, Hmode, Eu. unfold add_if_needed. rewrite Hk, Hfalsy.
    reflexivity.
Qed.

(** What [clear_cookies('sid', 'save')] leaves in the jar: a name of the
    two that the request carries is overwritten by the cleared cookie
    (empty value, expiry at the epoch); every other entry is as before. *)
Definition cleared_present (st st' : state) : Prop :=
  forall name,
    response_cookies st' !! name =
    if bool_decide ((name = "sid" \/ name = "save")
                    /\ is_Some (cookies request !! name))
    then Some cleared_cookie else response_cookies st !! name.

(** C4 (as the code has it). With a non-empty [sid] cookie,
    [delete_session] first asks the Token Store to delete the pair of the
    sid and the class inferred from the [save] cookie; whatever truth
    value the store answers, it then overwrites every one of [sid] and
    [save] that the request carries with the cleared cookie, and writes
    nothing for one the request does not carry. When the store raises, no
    cookie has been written. With no [sid] cookie, or an empty one, no
    delete is issued and the cookies are handled the same way. *)
Theorem delete_session_clears_present (st : state) :
  (forall s b tok,
     cookies request !! "sid" = Some s -> s <> "" ->
     token_delete (tokens st) s inferred_type = (Ok b, tok) ->
     exists st', delete_session st = (Ok tt, st')
       /\ tokens st' = tok
       /\ calls st' = calls st ++ [CallDelete s inferred_type]
       /\ cleared_present st st')
  /\ (forall s e tok,
       cookies request !! "sid" = Some s -> s <> "" ->
       token_delete (tokens st) s inferred_type = (Raise e, tok) ->
       exists st', delete_session st = (Raise e, st')
         /\ calls st' = calls st ++ [CallDelete s inferred_type]
         /\ response_cookies st' = response_cookies st)
  /\ (truthy_opt_str (cookies request !! "sid") = false ->
       exists st', delete_session st = (Ok tt, st')
         /\ tokens st' = tokens st /\ calls st' = calls st
         /\ cleared_present st st').
Proof.
  unfold delete_session, inferred_type. split; [|split].
  - intros s b tok Hsid Hs Ed. apply truthy_str_spec in Hs. rewrite Hsid, Hs.
    unfold bind, token_delete_call. rewrite Ed. cbn [ret].
    rewrite clear_cookies_run. eexists. split; [reflexivity|]. cbn.
    repeat split. intros name. apply cleared_jar_lookup.
  - intros s e tok Hsid Hs Ed. apply truthy_str_spec in Hs. rewrite Hsid, Hs.
    unfold bind, token_delete_call. rewrite Ed. eexists.
    split; [reflexivity|]. split; reflexivity.
  - intros Hsid. destruct (cookies request !! "sid") as [s|];
      [cbn in Hsid; rewrite Hsid|];
      rewrite bind_ret, clear_cookies_run; (eexists; split; [reflexivity|]);
      cbn; repeat split; intros name; apply cleared_jar_lookup.
Qed.

(** *** More on the session manager: renewal, failure, the cookie jar *)

Lemma cleared_jar_lookup_gen names (jar : gmap string cookie) name :
  cleared_jar names jar !! name =
  if bool_decide (name ∈ names /\ is_Some (cookies request !! name))
  then Some cleared_cookie else jar !! name.
Proof.
  revert jar. induction names as [|n rest IH]; intros jar.
  - rewrite bool_decide_eq_false_2; [reflexivity|]. intros [Hin _]. inversion Hin.
  - cbn [cleared_jar fold_left]. fold (cleared_jar rest). rewrite IH, clear_step_lookup.
    destruct (decide (is_Some (cookies request !! name))) as [Hp|Hp].
    + destruct (decide (name ∈ rest)) as [Hr|Hr].
      * rewrite !(bool_decide_eq_true_2 (name ∈ _ /\ _)); auto.
        split; [right; exact Hr | exact Hp].
      * rewrite (bool_decide_eq_false_2 (name ∈ rest /\ _)) by tauto.
        destruct (decide (name = n)) as [Hn|Hn].
        -- rewrite !bool_decide_eq_true_2; auto. split; [subst; left | exact Hp].
        -- rewrite !bool_decide_eq_false_2; auto.
           ++ intros [Hin _]. apply elem_of_cons in Hin. tauto.
           ++ tauto.
    + rewrite !bool_decide_eq_false_2; tauto.
Qed.

(** [clear_cookies] never fails and never touches the Token Store; of the
    names it is given it overwrites exactly those the request carries,
    each with the empty value expiring at the epoch, and leaves the rest
    of the jar alone; clearing a second time changes nothing. *)
Theorem clear_cookies_exact (names : list string) (st : state) :
  exists st',
    clear_cookies names st = (Ok tt, st')
    /\ tokens st' = tokens st /\ calls st' = calls st
    /\ (forall name,
          response_cookies st' !! name =
          if bool_decide (name ∈ names /\ is_Some (cookies request !! name))
          then Some cleared_cookie else response_cookies st !! name)
    /\ clear_cookies names st' = (Ok tt, st').
Proof.
  rewrite clear_cookies_run. eexists. split; [reflexivity|]. cbn.
  split; [reflexivity|]. split; [reflexivity|].
  split; [intros name; apply cleared_jar_lookup_gen|].
  rewrite clear_cookies_run. cbn. f_equal. f_equal.
  apply map_eq. intros name. rewrite !cleared_jar_lookup_gen.
  destruct (bool_decide (name ∈ names /\ is_Some (cookies request !! name)));
    reflexivity.
Qed.

Lemma emit_cookies_raise_jar save ttl sid session st x st' :
  emit_cookies save ttl sid session st = (Raise x, st') ->
  response_cookies st' = response_cookies st.
Proof.
  unfold emit_cookies.
  destruct session as [doc|]; [destruct (truthy_dict doc)|];
    try (unfold bind; rewrite clear_cookies_run; discriminate).
  destruct save; [|discriminate].
  unfold bind, expire_timestamp.
  destruct (doc !! "expire_at") as [[]|]; cbn; intros [= _ <-]; reflexivity.
Qed.

(** When [update_session] raises, whatever the cause (the store failing
    on the renewal or on the creation, or a saved session's document
    without a usable [expire_at]), no cookie has been written to the
    response. *)
Theorem update_session_raise_keeps_jar (new_saved : bool)
    (kwargs : gmap string value) (st st' : state) (x : exn) :
  update_session new_saved kwargs st = (Raise x, st') ->
  response_cookies st' = response_cookies st.
Proof.
  rewrite update_session_unfold. cbv zeta.
  assert (Hstep : forall sid session st0,
    (let* '(sid, session) :=
       (if truthy_dict kwargs && negb (truthy_opt_dict session) then
          let* '(new_sid, new_session) :=
            token_add_call (session_mode new_saved) (ttl_of (session_mode new_saved))
              (create_fields kwargs) in
          ret (Some new_sid, Some new_session)
        else ret (sid, session)) in
     emit_cookies (is_saved (session_mode new_saved))
       (ttl_of (session_mode new_saved)) sid session) st0 = (Raise x, st') ->
    response_cookies st' = response_cookies st0).
  { intros sid session st0.
    destruct (truthy_dict kwargs && negb (truthy_opt_dict session)).
    - unfold bind at 1 2. unfold token_add_call.
      destruct (token_add (tokens st0) (session_mode new_saved)
                  (ttl_of (session_mode new_saved)) (create_fields kwargs))
        as [[[new_sid new_session]|y] tok] eqn:Ea.
      + cbn [ret]. intros E. apply emit_cookies_raise_jar in E. exact E.
      + intros [= _ <-]. reflexivity.
    - rewrite bind_ret. apply emit_cookies_raise_jar. }
  destruct (truthy_opt_str (cookies request !! "sid")).
  - unfold bind at 1. unfold token_update_call.
    destruct (token_update (tokens st) (default "" (cookies request !! "sid"))
                (session_mode new_saved) (ttl_of (session_mode new_saved))
                (update_fields kwargs)) as [[session|y] tok] eqn:Eu.
    + intros E. apply Hstep in E. exact E.
    + intros [= _ <-]. reflexivity.
  - rewrite bind_ret. apply Hstep.
Qed.

Lemma sid_mode new_saved s :
  cookies request !! "sid" = Some s -> truthy_str s = true ->
  session_mode new_saved = inferred_type.
Proof. intros Hsid Hs. unfold session_mode. rewrite Hsid. cbn. rewrite Hs. reflexivity. Qed.

(** A request that carries a live session keeps it: when the renewal
    under the [sid] cookie returns a session, that session is returned, no
    token is created even if extra data was passed (it went into the
    renewal) and whatever [new_saved] says, and the [sid] cookie is set
    again to the same id: with [save=1], [expires] and [max_age] when the
    request's [save] cookie is non-empty, without them otherwise. *)
Theorem update_session_renews (new_saved : bool) (kwargs : gmap string value)
    (st : state) (s : string) (doc : gmap string value) (tok : TokenStore) :
  cookies request !! "sid" = Some s -> s <> "" ->
  token_update (tokens st) s inferred_type (ttl_of inferred_type)
    (update_fields kwargs) = (Ok (Some doc), tok) ->
  doc <> ∅ ->
  (truthy_opt_str (cookies request !! "save") = false ->
   update_session new_saved kwargs st =
   (Ok doc,
    {| tokens := tok;
       calls := calls st ++ [CallUpdate s TYPE_UNSAVED_SESSION
                               (unsaved_session_expire_seconds options)
                               (update_fields kwargs)];
       response_cookies := <["sid" := unsaved_cookie s]> (response_cookies st) |}))
  /\ (truthy_opt_str (cookies request !! "save") = true ->
      forall t, doc !! "expire_at" = Some (VDatetime t) ->
      update_session new_saved kwargs st =
      (Ok doc,
       {| tokens := tok;
          calls := calls st ++ [CallUpdate s TYPE_SAVED_SESSION
                                  (saved_session_expire_seconds options)
                                  (update_fields kwargs)];
          response_cookies :=
            <["sid" := saved_cookie s t]>
              (<["save" := saved_cookie "1" t]> (response_cookies st)) |})).
Proof.
  intros Hsid Hs Eu Hdoc. apply truthy_str_spec in Hs. apply truthy_dict_spec in Hdoc.
  pose proof (sid_mode new_saved s Hsid Hs) as Hmode.
  assert (Hrun : update_session new_saved kwargs st =
                 emit_cookies (is_saved inferred_type) (ttl_of inferred_type)
                   (Some s) (Some doc)
                   {| tokens := tok;
                      calls := calls st ++ [CallUpdate s inferred_type
                                              (ttl_of inferred_type)
                                              (update_fields kwargs)];
                      response_cookies := response_cookies st |}).
  { rewrite update_session_unfold. cbv zeta. rewrite Hmode, Hsid.
    cbn [truthy_opt_str]. rewrite Hs. change (default "" (Some s)) with s.
    unfold bind at 1. unfold token_update_call. rewrite Eu.
    cbn [truthy_opt_dict]. rewrite Hdoc, andb_false_r. rewrite bind_ret.
    reflexivity. }
  rewrite Hrun. unfold inferred_type. split.
  - intros Hsave. rewrite Hsave. cbn [is_saved ttl_of].
    unfold emit_cookies. rewrite Hdoc. reflexivity.
  - intros Hsave t Hexp. rewrite Hsave. cbn [is_saved ttl_of].
    unfold emit_cookies. rewrite Hdoc. unfold bind, expire_timestamp.
    rewrite Hexp. reflexivity.
Qed.

(** A request whose [sid] cookie no longer names a token, with no extra
    data: the renewal is the only call to the store, the empty session is
    returned, and the stale cookies the request carries are overwritten by
    cleared ones. *)
Theorem update_session_expired (new_saved : bool) (st : state) (s : string)
    (session : option (gmap string value)) (tok : TokenStore) :
  cookies request !! "sid" = Some s -> s <> "" ->
  token_update (tokens st) s inferred_type (ttl_of inferred_type)
    (update_fields ∅) = (Ok session, tok) ->
  truthy_opt_dict session = false ->
  exists st',
    update_session new_saved ∅ st = (Ok ∅, st')
    /\ tokens st' = tok
    /\ calls st' = calls st ++ [CallUpdate s inferred_type (ttl_of inferred_type)
                                  (update_fields ∅)]
    /\ cleared_present st st'
    /\ response_cookies st' !! "sid" = Some cleared_cookie.
Proof.
  intros Hsid Hs Eu Hfalsy. apply truthy_str_spec in Hs.
  pose proof (sid_mode new_saved s Hsid Hs) as Hmode.
  rewrite update_session_unfold. cbv zeta. rewrite Hmode, Hsid.
  cbn [truthy_opt_str]. rewrite Hs. change (default "" (Some s)) with s.
  unfold bind at 1. unfold token_update_call. rewrite Eu.
  rewrite (truthy_dict_empty (V := value)). cbn [andb]. rewrite bind_ret.
  assert (Hemit : forall st0,
            emit_cookies (is_saved inferred_type) (ttl_of inferred_type)
              (Some s) session st0 =
            (Ok ∅, {| tokens := tokens st0; calls := calls st0;
                      response_cookies :=
                        cleared_jar ["sid"; "save"] (response_cookies st0) |})).
  { intros st0. unfold emit_cookies.
    destruct session as [d|]; [cbn in Hfalsy; rewrite Hfalsy|];
      unfold bind; rewrite clear_cookies_run; reflexivity. }
  rewrite Hemit. eexists. split; [reflexivity|]. cbn [tokens calls response_cookies].
  split; [reflexivity|]. split; [reflexivity|]. split.
  - intros name. apply cleared_jar_lookup.
  - rewrite cleared_jar_lookup, Hsid. rewrite bool_decide_eq_true_2; [reflexivity|].
    split; [left; reflexivity | eexists; reflexivity].
Qed.

(** Whatever it is given, one call of [update_session] asks the store at
    most twice and never to delete: a renewal first, exactly when the
    [sid] cookie is non-empty, then at most one creation, and none
    without extra data. *)
Theorem update_session_call_shape (new_saved : bool)
    (kwargs : gmap string value) (st st' : state) (r : result (gmap string value)) :
  update_session new_saved kwargs st = (r, st') ->
  let ty := session_mode new_saved in
  let renewal s := CallUpdate s ty (ttl_of ty) (update_fields kwargs) in
  let creation := CallAdd ty (ttl_of ty) (create_fields kwargs) in
  (forall s, cookies request !! "sid" = Some s -> s <> "" ->
     new_calls st st' = [renewal s] \/ new_calls st st' = [renewal s; creation])
  /\ (truthy_opt_str (cookies request !! "sid") = false ->
      new_calls st st' = [] \/ new_calls st st' = [creation])
  /\ (kwargs = ∅ -> creation ∉ new_calls st st').
Proof.
  intros E ty renewal creation. apply update_session_calls in E.
  unfold new_calls. rewrite E, drop_length_app. unfold expected_calls.
  fold ty. unfold add_if_needed. fold creation.
  split; [|split].
  - intros s Hsid Hs. apply truthy_str_spec in Hs. rewrite Hsid, Hs.
    destruct (token_update _ _ _ _ _) as [[session|y] tok]; [|left; reflexivity].
    destruct (truthy_dict kwargs && negb (truthy_opt_dict session));
      [right | left]; reflexivity.
  - intros Hsid. destruct (cookies request !! "sid") as [s|];
      [cbn in Hsid; rewrite Hsid|];
      cbn [truthy_opt_dict negb]; rewrite andb_true_r;
      destruct (truthy_dict kwargs); [right|left|right|left]; reflexivity.
  - intros ->. rewrite (truthy_dict_empty (V := value)). cbn [andb].
    destruct (cookies request !! "sid") as [s|]; [destruct (truthy_str s)|].
    + destruct (token_update _ _ _ _ _) as [[session|y] tok];
        intros Hin; apply elem_of_cons in Hin as [Hin|Hin];
        try discriminate; inversion Hin.
    + inversion 1.
    + inversion 1.
Qed.

Lemma update_session_anonymous new_saved st :
  truthy_opt_str (cookies request !! "sid") = false ->
  update_session new_saved ∅ st =
  (Ok ∅, {| tokens := tokens st; calls := calls st;
            response_cookies := cleared_jar ["sid"; "save"] (response_cookies st) |}).
Proof.
  intros Hsid. rewrite update_session_unfold. cbv zeta. rewrite Hsid, bind_ret.
  rewrite (truthy_dict_empty (V := value)). cbn [andb]. rewrite bind_ret.
  unfold emit_cookies, bind. rewrite clear_cookies_run. reflexivity.
Qed.

(** The session manager raises no user-facing error of its own: what it
    raises is a failure of the store or of a lookup in the session
    document. *)
Definition not_user_facing (x : exn) : Prop := forall e, x <> UserFacing e.

Lemma emit_cookies_raises save ttl sid session st x st' :
  emit_cookies save ttl sid session st = (Raise x, st') -> not_user_facing x.
Proof.
  unfold emit_cookies.
  destruct session as [doc|]; [destruct (truthy_dict doc)|];
    try (unfold bind; rewrite clear_cookies_run; discriminate).
  destruct save; [|discriminate].
  unfold bind, expire_timestamp.
  destruct (doc !! "expire_at") as [[]|]; cbn; intros [= <- _] e; discriminate.
Qed.

Lemma update_session_raises new_saved kwargs st x st' :
  (forall t sid ty ttl fields y t',
     token_update t sid ty ttl fields = (Raise y, t') -> not_user_facing y) ->
  (forall t ty ttl fields y t',
     token_add t ty ttl fields = (Raise y, t') -> not_user_facing y) ->
  update_session new_saved kwargs st = (Raise x, st') -> not_user_facing x.
Proof.
  intros Hupd Hadd. rewrite update_session_unfold. cbv zeta.
  assert (Hstep : forall sid session st0,
    (let* '(sid, session) :=
       (if truthy_dict kwargs && negb (truthy_opt_dict session) then
          let* '(new_sid, new_session) :=
            token_add_call (session_mode new_saved) (ttl_of (session_mode new_saved))
              (create_fields kwargs) in
          ret (Some new_sid, Some new_session)
        else ret (sid, session)) in
     emit_cookies (is_saved (session_mode new_saved))
       (ttl_of (session_mode new_saved)) sid session) st0 = (Raise x, st') ->
    not_user_facing x).
  { intros sid session st0.
    destruct (truthy_dict kwargs && negb (truthy_opt_dict session)).
    - unfold bind at 1 2. unfold token_add_call.
      destruct (token_add (tokens st0) (session_mode new_saved)
                  (ttl_of (session_mode new_saved)) (create_fields kwargs))
        as [[[new_sid new_session]|y] tok] eqn:Ea.
      + cbn [ret]. apply emit_cookies_raises.
      + intros [= <- _]. eapply Hadd, Ea.
    - rewrite bind_ret. apply emit_cookies_raises. }
  destruct (truthy_opt_str (cookies request !! "sid")).
  - unfold bind at 1. unfold token_update_call.
    destruct (token_update (tokens st) (default "" (cookies request !! "sid"))
                (session_mode new_saved) (ttl_of (session_mode new_saved))
                (update_fields kwargs)) as [[session|y] tok] eqn:Eu.
    + apply Hstep.
    + intros [= <- _]. eapply Hupd, Eu.
  - rewrite bind_ret. apply Hstep.
Qed.

End Session.

Arguments tokens {TokenStore} _.
Arguments calls {TokenStore} _.
Arguments response_cookies {TokenStore} _.
Arguments Build_state {TokenStore} _ _ _.
Arguments new_calls {TokenStore} _ _.
Arguments cleared_present {TokenStore} _ _ _ _ _.

(** *** The session manager on an in-memory Token Store

    A store that keeps every token under its id with its class; the clock
    stands at 0, so a token's [expire_at] is its time to live. *)

Global Instance token_type_eq_dec : EqDecision token_type.
Proof. solve_decision. Defined.

Definition mem_update (store : gmap string (token_type * gmap string value))
    (sid : string) (ty : token_type) (ttl : Z) (fields : gmap string value)
  : result (option (gmap string value)) * gmap string (token_type * gmap string value) :=
  match store !! sid with
  | Some (ty', doc) =>
      if bool_decide (ty' = ty) then
        let doc' := <["expire_at" := VDatetime ttl]> (fields ∪ doc) in
        (Ok (Some doc'), <[sid := (ty, doc')]> store)
      else (Ok None, store)
  | None => (Ok None, store)
  end.

Definition mem_add (store : gmap string (token_type * gmap string value))
    (ty : token_type) (ttl : Z) (fields : gmap string value)
  : result (string * gmap string value) * gmap string (token_type * gmap string value) :=
  let sid := String.append "t" (pretty (size store)) in
  let doc := <["expire_at" := VDatetime ttl]> fields in
  (Ok (sid, doc), <[sid := (ty, doc)]> store).

Definition mem_delete (store : gmap string (token_type * gmap string value))
    (sid : string) (ty : token_type)
  : result bool * gmap string (token_type * gmap string value) :=
  match store !! sid with
  | Some (ty', _) =>
      if bool_decide (ty' = ty) then (Ok true, delete sid store) else (Ok false, store)
  | None => (Ok false, store)
  end.

(** A date format for the examples: the timestamp in decimal. *)
Definition decimal_date (t : Z) : string := pretty t.

Definition options0 : Options :=
  {| saved_session_expire_seconds := 2592000;
     unsaved_session_expire_seconds := 10800;
     cookie_domain := None; cookie_secure := false; ip_header := "" |}.

Definition request_of (cs : gmap string string) : Request :=
  {| cookies := cs; headers := {["User-Agent" := "curl"]};
     peername := ("127.0.0.1", 4096) |}.

Definition state0 : state (gmap string (token_type * gmap string value)) :=
  {| tokens := ∅; calls := []; response_cookies := ∅ |}.

Definition login_data : gmap string value := {["uid" := VInt 7]}.

Lemma login_data_non_empty : login_data <> ∅.
Proof. apply insert_non_empty. Defined.

(** C3 on a request without cookies: nothing is returned, nothing is
    asked of the store. *)
Lemma update_session_idle_witness :
  exists st',
    update_session _ mem_update mem_add decimal_date options0 (request_of ∅)
      false ∅ state0 = (Ok ∅, st')
    /\ tokens st' = tokens state0 /\ calls st' = calls state0.
Proof.
  apply (proj1 (update_session_idle _ mem_update mem_add decimal_date options0
                  (request_of ∅) false ∅ state0)); reflexivity.
Defined.

(** C6 on the store above: a login without cookies, remembered and not,
    and a login under a stale [sid] cookie that came with [save=1]. *)
Lemma update_session_create_witness :
  (exists new_sid doc tok t,
     update_session _ mem_update mem_add decimal_date options0 (request_of ∅)
       true login_data state0 =
     (Ok doc,
      {| tokens := tok;
         calls := [CallAdd TYPE_SAVED_SESSION 2592000
                     (create_fields options0 (request_of ∅) login_data)];
         response_cookies :=
           <["sid" := saved_cookie decimal_date options0 new_sid t]>
             (<["save" := saved_cookie decimal_date options0 "1" t]> ∅) |}))
  /\ (exists new_sid doc tok,
       update_session _ mem_update mem_add decimal_date options0 (request_of ∅)
         false login_data state0 =
       (Ok doc,
        {| tokens := tok;
           calls := [CallAdd TYPE_UNSAVED_SESSION 10800
                       (create_fields options0 (request_of ∅) login_data)];
           response_cookies := <["sid" := unsaved_cookie options0 new_sid]> ∅ |}))
  /\ (let request := request_of {["sid" := "stale"; "save" := "1"]} in
      new_calls state0
        (snd (update_session _ mem_update mem_add decimal_date options0 request
                false login_data state0)) =
      [CallUpdate "stale" TYPE_SAVED_SESSION 2592000
         (update_fields options0 request login_data);
       CallAdd TYPE_SAVED_SESSION 2592000
         (create_fields options0 request login_data)]).
Proof.
  split; [|split].
  - do 4 eexists.
    apply (proj1 (proj1 (update_session_create _ mem_update mem_add decimal_date
                           options0 (request_of ∅) login_data state0
                           login_data_non_empty) (lookup_empty _))).
    + reflexivity.
    + apply lookup_insert_eq.
  - do 3 eexists.
    apply (proj2 (proj1 (update_session_create _ mem_update mem_add decimal_date
                           options0 (request_of ∅) login_data state0
                           login_data_non_empty) (lookup_empty _))).
    + reflexivity.
    + apply insert_non_empty.
  - intros request.
    eapply (proj2 (update_session_create _ mem_update mem_add decimal_date
                     options0 request login_data state0 login_data_non_empty)
              false "stale" None).
    + reflexivity.
    + discriminate.
    + reflexivity.
    + reflexivity.
    + apply surjective_pairing.
Defined.

(** C4 (as the code has it) on a request with both cookies whose token the
    store does not know: the delete answers "not found" and both cookies
    are overwritten all the same. *)
Lemma delete_session_clears_present_witness :
  let request := request_of {["sid" := "abc"; "save" := "1"]} in
  exists st',
    delete_session _ mem_delete decimal_date options0 request state0 = (Ok tt, st')
    /\ tokens st' = ∅
    /\ calls st' = [CallDelete "abc" TYPE_SAVED_SESSION]
    /\ cleared_present decimal_date options0 request state0 st'
    /\ response_cookies st' !! "sid" = Some (cleared_cookie decimal_date options0)
    /\ response_cookies st' !! "save" = Some (cleared_cookie decimal_date options0).
Proof.
  intros request.
  destruct (proj1 (delete_session_clears_present _ mem_delete decimal_date options0
                     request state0) "abc" false ∅)
    as (st' & E & Htok & Hcalls & Hjar).
  - reflexivity.
  - discriminate.
  - reflexivity.
  - exists st'. repeat split; try assumption.
    + rewrite (Hjar "sid"). reflexivity.
    + rewrite (Hjar "save"). reflexivity.
Defined.

(** C4 as stated fails on a request that carries [sid] alone: the [sid]
    cookie is overwritten, but nothing is written for [save], which the
    request did not carry. And under an empty [sid] cookie no delete is
    issued at all. *)
Lemma delete_session_skips_absent_cookie :
  (let st' := snd (delete_session _ mem_delete decimal_date options0
                     (request_of {["sid" := "abc"]}) state0) in
   calls st' = [CallDelete "abc" TYPE_UNSAVED_SESSION]
   /\ response_cookies st' !! "sid" = Some (cleared_cookie decimal_date options0)
   /\ response_cookies st' !! "save" = None)
  /\ (let st' := snd (delete_session _ mem_delete decimal_date options0
                        (request_of {["sid" := ""]}) state0) in
      calls st' = []
      /\ response_cookies st' !! "save" = None).
Proof. vm_compute. repeat split. Qed.

(** A store that holds one unsaved session, and a store that is down. *)
Definition store1 : gmap string (token_type * gmap string value) :=
  {["abc" := (TYPE_UNSAVED_SESSION, {["uid" := VInt 7]})]}.

Definition state1 : state (gmap string (token_type * gmap string value)) :=
  {| tokens := store1; calls := []; response_cookies := ∅ |}.

Definition down_update (store : gmap string (token_type * gmap string value))
    (sid : string) (ty : token_type) (ttl : Z) (fields : gmap string value)
  : result (option (gmap string value)) * gmap string (token_type * gmap string value) :=
  (Raise (OtherError "ConnectionFailure"), store).

Lemma update_session_renews_witness :
  exists doc tok,
    update_session _ mem_update mem_add decimal_date options0
      (request_of {["sid" := "abc"]}) true login_data state1 =
    (Ok doc,
     {| tokens := tok;
        calls := [CallUpdate "abc" TYPE_UNSAVED_SESSION 10800
                    (update_fields options0 (request_of {["sid" := "abc"]}) login_data)];
        response_cookies := <["sid" := unsaved_cookie options0 "abc"]> ∅ |}).
Proof.
  destruct (update_session_renews _ mem_update mem_add decimal_date options0
              (request_of {["sid" := "abc"]}) true login_data state1 "abc"
              (<["expire_at" := VDatetime 10800]>
                 (update_fields options0 (request_of {["sid" := "abc"]}) login_data
                  ∪ {["uid" := VInt 7]}))
              (<["abc" := (TYPE_UNSAVED_SESSION,
                           <["expire_at" := VDatetime 10800]>
                             (update_fields options0
                                (request_of {["sid" := "abc"]}) login_data
                              ∪ {["uid" := VInt 7]}))]> store1))
    as [Hunsaved _].
  - apply lookup_insert_eq.
  - discriminate.
  - reflexivity.
  - apply insert_non_empty.
  - do 2 eexists. apply Hunsaved. reflexivity.
Defined.

Lemma update_session_expired_witness :
  exists st',
    update_session _ mem_update mem_add decimal_date options0
      (request_of {["sid" := "stale"; "save" := "1"]}) false ∅ state0 = (Ok ∅, st')
    /\ calls st' = [CallUpdate "stale" TYPE_SAVED_SESSION 2592000
                      (update_fields options0
                         (request_of {["sid" := "stale"; "save" := "1"]}) ∅)]
    /\ response_cookies st' !! "sid" = Some (cleared_cookie decimal_date options0)
    /\ response_cookies st' !! "save" = Some (cleared_cookie decimal_date options0).
Proof.
  destruct (update_session_expired _ mem_update mem_add decimal_date options0
              (request_of {["sid" := "stale"; "save" := "1"]}) false state0
              "stale" None ∅)
    as (st' & E & _ & Hcalls & Hjar & Hsid).
  - apply lookup_insert_eq.
  - discriminate.
  - reflexivity.
  - reflexivity.
  - exists st'. split; [exact E|]. split; [exact Hcalls|]. split; [exact Hsid|].
    rewrite (Hjar "save"). reflexivity.
Defined.

Lemma update_session_raise_keeps_jar_witness :
  response_cookies
    (snd (update_session _ down_update mem_add decimal_date options0
            (request_of {["sid" := "abc"]}) false login_data state1)) = ∅.
Proof.
  apply (update_session_raise_keeps_jar _ down_update mem_add decimal_date options0
           (request_of {["sid" := "abc"]}) false login_data state1 _
           (OtherError "ConnectionFailure")).
  apply injective_projections; reflexivity.
Defined.

Lemma update_session_call_shape_witness :
  new_calls state0
    (snd (update_session _ mem_update mem_add decimal_date options0
            (request_of ∅) false ∅ state0)) = [].
Proof.
  destruct (update_session_call_shape _ mem_update mem_add decimal_date options0
              (request_of ∅) false ∅ state0 _ _ (surjective_pairing _))
    as (_ & Hnone & Hempty).
  destruct (Hnone eq_refl) as [E|E]; [exact E|].
  exfalso. apply (Hempty eq_refl). rewrite E. left.
Defined.

End Session.

(** ** [hashlib.sha256] and [hmac.new(key, msg, 'sha256').hexdigest()]

    The two standard-library functions [_get_csrf_token] calls, written
    out (FIPS 180-4 and RFC 2104) over 32-bit words held in [Z]. *)

Module Hmac.

Definition mask32 : Z := 4294967295.

Definition add32 (x y : Z) : Z := Z.land (x + y) mask32.

Definition rotr (n x : Z) : Z :=
  Z.lor (Z.shiftr x n) (Z.land (Z.shiftl x (32 - n)) mask32).

Definition not32 (x : Z) : Z := Z.lxor x mask32.

Definition Ch (x y z : Z) : Z := Z.lxor (Z.land x y) (Z.land (not32 x) z).

Definition Maj (x y z : Z) : Z :=
  Z.lxor (Z.lxor (Z.land x y) (Z.land x z)) (Z.land y z).

Definition Sigma0 (x : Z) : Z := Z.lxor (Z.lxor (rotr 2 x) (rotr 13 x)) (rotr 22 x).
Definition Sigma1 (x : Z) : Z := Z.lxor (Z.lxor (rotr 6 x) (rotr 11 x)) (rotr 25 x).
Definition sigma0 (x : Z) : Z := Z.lxor (Z.lxor (rotr 7 x) (rotr 18 x)) (Z.shiftr x 3).
Definition sigma1 (x : Z) : Z := Z.lxor (Z.lxor (rotr 17 x) (rotr 19 x)) (Z.shiftr x 10).

Definition K : list Z :=
  [1116352408; 1899447441; 3049323471; 3921009573; 961987163; 1508970993;
   2453635748; 2870763221; 3624381080; 310598401; 607225278; 1426881987;
   1925078388; 2162078206; 2614888103; 3248222580; 3835390401; 4022224774;
   264347078; 604807628; 770255983; 1249150122; 1555081692; 1996064986;
   2554220882; 2821834349; 2952996808; 3210313671; 3336571891; 3584528711;
   113926993; 338241895; 666307205; 773529912; 1294757372; 1396182291;
   1695183700; 1986661051; 2177026350; 2456956037; 2730485921; 2820302411;
   3259730800; 3345764771; 3516065817; 3600352804; 4094571909; 275423344;
   430227734; 506948616; 659060556; 883997877; 958139571; 1322822218;
   1537002063; 1747873779; 1955562222; 2024104815; 2227730452; 2361852424;
   2428436474; 2756734187; 3204031479; 3329325298].

(** The eight working words. *)
Record regs := {
  ra : Z; rb : Z; rc : Z; rd : Z; re : Z; rf : Z; rg : Z; rh : Z
}.

Definition H0 : regs :=
  {| ra := 1779033703; rb := 3144134277; rc := 1013904242; rd := 2773480762;
     re := 1359893119; rf := 2600822924; rg := 528734635; rh := 1541459225 |}.

(** The message schedule, most recent word first. *)
Fixpoint extend (n : nat) (w : list Z) : list Z :=
  match n with
  | O => w
  | S n' =>
      let x := add32 (add32 (sigma1 (nth 1 w 0)) (nth 6 w 0))
                     (add32 (sigma0 (nth 14 w 0)) (nth 15 w 0)) in
      extend n' (x :: w)
  end.

Definition schedule (block : list Z) : list Z := rev (extend 48 (rev block)).

Definition round (r : regs) (kw : Z * Z) : regs :=
  let t1 := add32 (add32 (add32 (rh r) (Sigma1 (re r))) (Ch (re r) (rf r) (rg r)))
                  (add32 (fst kw) (snd kw)) in
  let t2 := add32 (Sigma0 (ra r)) (Maj (ra r) (rb r) (rc r)) in
  {| ra := add32 t1 t2; rb := ra r; rc := rb r; rd := rc r;
     re := add32 (rd r) t1; rf := re r; rg := rf r; rh := rg r |}.

Definition compress (h : regs) (block : list Z) : regs :=
  let r := fold_left round (combine K (schedule block)) h in
  {| ra := add32 (ra h) (ra r); rb := add32 (rb h) (rb r);
     rc := add32 (rc h) (rc r); rd := add32 (rd h) (rd r);
     re := add32 (re h) (re r); rf := add32 (rf h) (rf r);
     rg := add32 (rg h) (rg r); rh := add32 (rh h) (rh r) |}.

Definition byte_to_Z (b : byte) : Z := Z.of_N (Byte.to_N b).

Definition Z_to_byte (x : Z) : byte :=
  default x00 (Byte.of_N (Z.to_N (Z.land x 255))).

(** Big-endian bytes of a word, [n] of them. *)
Fixpoint be_bytes (n : nat) (x : Z) : list byte :=
  match n with
  | O => []
  | S n' => Z_to_byte (Z.shiftr x (8 * Z.of_nat n')) :: be_bytes n' x
  end.

Definition be_word (bs : list byte) : Z :=
  fold_left (fun acc b => Z.lor (Z.shiftl acc 8) (byte_to_Z b)) bs 0.

Definition pad (msg : list byte) : list byte :=
  let len := Z.of_nat (length msg) in
  msg ++ [x80] ++ repeat x00 (Z.to_nat ((55 - len) mod 64)) ++ be_bytes 8 (8 * len).

(** Cut a list into pieces of [n] elements. *)
Fixpoint chunks {A} (fuel n : nat) (l : list A) : list (list A) :=
  match fuel with
  | O => []
  | S fuel' =>
      match l with
      | [] => []
      | _ => take n l :: chunks fuel' n (drop n l)
      end
  end.

Definition words (block : list byte) : list Z :=
  map be_word (chunks 16 4 block).

Definition digest_of (r : regs) : list byte :=
  be_bytes 4 (ra r) ++ be_bytes 4 (rb r) ++ be_bytes 4 (rc r) ++ be_bytes 4 (rd r)
  ++ be_bytes 4 (re r) ++ be_bytes 4 (rf r) ++ be_bytes 4 (rg r) ++ be_bytes 4 (rh r).

Definition sha256 (msg : list byte) : list byte :=
  let padded := pad msg in
  let blocks := chunks (length padded) 64 padded in
  digest_of (fold_left (fun h b => compress h (words b)) blocks H0).

Definition block_size : nat := 64.

Definition xor_pad (p : Z) (key : list byte) : list byte :=
  map (fun b => Z_to_byte (Z.lxor (byte_to_Z b) p)) key.

(** [hmac.new(key, msg, 'sha256').digest()] *)
Definition hmac_sha256 (key msg : list byte) : list byte :=
  let key := if (block_size <? length key)%nat then sha256 key else key in
  let key := key ++ repeat x00 (block_size - length key) in
  sha256 (xor_pad 92 key ++ sha256 (xor_pad 54 key ++ msg)).

Definition hex_digit (x : Z) : ascii :=
  nth (Z.to_nat x)
    ["0"; "1"; "2"; "3"; "4"; "5"; "6"; "7"; "8"; "9"; "a"; "b"; "c"; "d"; "e"; "f"]%char
    "0"%char.

Fixpoint hexlify (bs : list byte) : string :=
  match bs with
  | [] => EmptyString
  | b :: rest =>
      String (hex_digit (Z.shiftr (byte_to_Z b) 4))
        (String (hex_digit (Z.land (byte_to_Z b) 15)) (hexlify rest))
  end.

Definition bytes_of_string (s : string) : list byte := list_byte_of_string s.

Lemma digest_of_length r : length (digest_of r) = 32%nat.
Proof. reflexivity. Qed.

Lemma sha256_length msg : length (sha256 msg) = 32%nat.
Proof. unfold sha256. apply digest_of_length. Qed.

Lemma hmac_sha256_length key msg : length (hmac_sha256 key msg) = 32%nat.
Proof. unfold hmac_sha256. apply sha256_length. Qed.

Lemma hexlify_length bs : String.length (hexlify bs) = (2 * length bs)%nat.
Proof. induction bs as [|b bs IH]; simpl; [reflexivity|]. rewrite IH. lia. Qed.

(** The function agrees with the library on its published vectors. *)
Example sha256_abc :
  hexlify (sha256 (bytes_of_string "abc")) =
  "ba7816bf8f01cfea414140de5dae2223b00361a396177a9cb410ff61f20015ad".
Proof. vm_compute. reflexivity. Qed.

Example sha256_empty :
  hexlify (sha256 []) =
  "e3b0c44298fc1c149afbf4c8996fb92427ae41e4649b934ca495991b7852b855".
Proof. vm_compute. reflexivity. Qed.

Example hmac_sha256_long_key :
  hexlify (hmac_sha256 (repeat "k"%byte 70) (bytes_of_string "abc")) =
  "3aee79d2a06f8dc1dd8be8883f48f459ebfcda24aca8133cb0dd1c3a71d280d2".
Proof. vm_compute. reflexivity. Qed.

End Hmac.

(** ** CSRF token derivation and the [require_csrf_token] guard *)

Module Csrf.

(** [functools.lru_cache()] around a function [f] of one argument: the
    cache holds at most [maxsize] entries, most recently used first. *)
Section LruCache.
Context {K V : Type} `{EqDecision K}.
Variable f : K -> V.
Variable maxsize : nat.

Fixpoint cache_find (k : K) (cache : list (K * V)) : option V :=
  match cache with
  | [] => None
  | (k', v) :: rest => if decide (k' = k) then Some v else cache_find k rest
  end.

Fixpoint cache_remove (k : K) (cache : list (K * V)) : list (K * V) :=
  match cache with
  | [] => []
  | (k', v) :: rest =>
      if decide (k' = k) then rest else (k', v) :: cache_remove k rest
  end.

Definition lru_call (cache : list (K * V)) (k : K) : V * list (K * V) :=
  match cache_find k cache with
  | Some v => (v, (k, v) :: cache_remove k cache)
  | None => let v := f k in (v, take maxsize ((k, v) :: cache))
  end.

(** The results of a sequence of calls, threading the cache. *)
Fixpoint lru_run (cache : list (K * V)) (ks : list K) : list V :=
  match ks with
  | [] => []
  | k :: rest => let '(v, cache') := lru_call cache k in v :: lru_run cache' rest
  end.

(** Every cached value is the function's value at its key. *)
Definition cache_ok (cache : list (K * V)) : Prop :=
  Forall (fun kv => snd kv = f (fst kv)) cache.

Lemma cache_find_ok cache k v :
  cache_ok cache -> cache_find k cache = Some v -> v = f k.
Proof.
  induction 1 as [|[k' v'] rest Hkv _ IH]; cbn; [discriminate|].
  destruct (decide (k' = k)) as [<-|]; [|exact IH].
  intros [= <-]. exact Hkv.
Qed.

Lemma cache_remove_ok cache k : cache_ok cache -> cache_ok (cache_remove k cache).
Proof.
  induction 1 as [|[k' v'] rest Hkv Hrest IH]; cbn; [constructor|].
  destruct (decide (k' = k)); [exact Hrest | constructor; assumption].
Qed.

Lemma cache_ok_take n cache : cache_ok cache -> cache_ok (take n cache).
Proof. apply Forall_take. Qed.

Lemma lru_call_ok cache k :
  cache_ok cache ->
  fst (lru_call cache k) = f k /\ cache_ok (snd (lru_call cache k)).
Proof.
  intros Hok. unfold lru_call.
  destruct (cache_find k cache) as [v|] eqn:E; cbn.
  - apply (cache_find_ok _ _ _ Hok) in E. subst v. split; [reflexivity|].
    constructor; [reflexivity | apply cache_remove_ok, Hok].
  - split; [reflexivity|]. apply cache_ok_take. constructor; [reflexivity | exact Hok].
Qed.

Lemma lru_run_ok cache ks : cache_ok cache -> lru_run cache ks = map f ks.
Proof.
  revert cache. induction ks as [|k rest IH]; intros cache Hok; cbn; [reflexivity|].
  destruct (lru_call_ok cache k Hok) as [Hv Hc].
  destruct (lru_call cache k) as [v cache']. cbn in Hv, Hc.
  rewrite Hv, (IH _ Hc). reflexivity.
Qed.

End LruCache.

(** The key of the derivation, [b'csrf_token']. *)
Definition csrf_key : list byte := Hmac.bytes_of_string "csrf_token".

(** The body of [_get_csrf_token]. The [lru_cache] around it is
    transparent ([lru_run_ok]); [get_csrf_token_cached] is the decorated
    function with its cache made explicit. *)
Definition _get_csrf_token (session_id_binary : list byte) : string :=
  Hmac.hexlify (Hmac.hmac_sha256 csrf_key session_id_binary).

Definition get_csrf_token_cached (cache : list (list byte * string))
    (session_id_binary : list byte) : string * list (list byte * string) :=
  lru_call _get_csrf_token 128 cache session_id_binary.

(** [ViewBase.csrf_token], a property of [self.session]. *)
Definition csrf_token (session : gmap string value) : result string :=
  if truthy_dict session then
    match session !! "_id" with
    | Some (VBytes session_id_binary) => Ok (_get_csrf_token session_id_binary)
    | Some _ => Raise (TypeError "object supporting the buffer API required")
    | None => Raise (KeyError "_id")
    end
  else Ok "".

(** [token != supplied] for a [str] token and any supplied value. *)
Definition str_ne (token : string) (supplied : value) : bool :=
  match supplied with
  | VStr s => negb (bool_decide (token = s))
  | _ => true
  end.

(** [require_csrf_token(func)], applied to [self] (of which it reads the
    session), the positional and the keyword arguments. *)
Definition require_csrf_token {A}
    (func : list value -> gmap string value -> result A)
    (session : gmap string value)
    (args : list value) (kwargs : gmap string value) : result A :=
  match csrf_token session with
  | Raise e => Raise e
  | Ok expected =>
      if truthy_str expected then
        match csrf_token session with
        | Raise e => Raise e
        | Ok expected =>
            let supplied := default (VStr "") (kwargs !! "csrf_token") in
            let kwargs := delete "csrf_token" kwargs in
            if str_ne expected supplied then Raise (UserFacing CsrfTokenError)
            else func args kwargs
        end
      else func args kwargs
  end.

(** *** Properties *)

Lemma _get_csrf_token_length sid : String.length (_get_csrf_token sid) = 64%nat.
Proof.
  unfold _get_csrf_token. rewrite Hmac.hexlify_length, Hmac.hmac_sha256_length.
  reflexivity.
Qed.

Lemma _get_csrf_token_non_empty sid : _get_csrf_token sid <> "".
Proof.
  intros E. pose proof (_get_csrf_token_length sid) as H. rewrite E in H.
  discriminate.
Qed.

(** C8. The token is the hex digest of the HMAC-SHA256 of the session id
    under the key [b'csrf_token']; a context without a session has the
    empty token; and through the memoising decorator every derivation of
    a session id, first or repeated, in any sequence of calls, returns
    that same value. *)
Theorem csrf_token_derivation :
  (forall session sid,
     session !! "_id" = Some (VBytes sid) ->
     csrf_token session =
     Ok (Hmac.hexlify (Hmac.hmac_sha256 (Hmac.bytes_of_string "csrf_token") sid)))
  /\ (forall session, truthy_dict session = false -> csrf_token session = Ok "")
  /\ (forall (ids : list (list byte)) (i j : nat) (sid : list byte),
        ids !! i = Some sid -> ids !! j = Some sid ->
        lru_run _get_csrf_token 128 [] ids !! i = Some (_get_csrf_token sid)
        /\ lru_run _get_csrf_token 128 [] ids !! j
           = lru_run _get_csrf_token 128 [] ids !! i).
Proof.
  split; [|split].
  - intros session sid Hid. unfold csrf_token.
    assert (Ht : truthy_dict session = true).
    { apply truthy_dict_spec. intros ->. rewrite lookup_empty in Hid. discriminate. }
    rewrite Ht, Hid. reflexivity.
  - intros session Hs. unfold csrf_token. rewrite Hs. reflexivity.
  - intros ids i j sid Hi Hj.
    rewrite (lru_run_ok _get_csrf_token 128 [] ids) by constructor.
    rewrite !list_lookup_fmap, Hi, Hj. split; reflexivity.
Qed.

(** C9. With a [csrf_token] field among the keyword arguments: under a
    non-empty expected token the field is popped, a differing value
    raises [CsrfTokenError], and a matching one lets the handler run on the
    arguments without the field; under the empty expected token the pop
    is never evaluated, and the handler runs on the arguments as they
    came, the field included. *)
Theorem require_csrf_token_pop {A}
    (func : list value -> gmap string value -> result A)
    (session : gmap string value) (args : list value)
    (kwargs : gmap string value) (supplied : value) :
  kwargs !! "csrf_token" = Some supplied ->
  (forall expected,
     csrf_token session = Ok expected -> expected <> "" ->
     (supplied = VStr expected ->
      require_csrf_token func session args kwargs
      = func args (delete "csrf_token" kwargs))
     /\ (supplied <> VStr expected ->
         require_csrf_token func session args kwargs
         = Raise (UserFacing CsrfTokenError))
     /\ delete "csrf_token" kwargs !! "csrf_token" = None)
  /\ (csrf_token session = Ok "" ->
      require_csrf_token func session args kwargs = func args kwargs
      /\ kwargs !! "csrf_token" = Some supplied).
Proof.
  intros Hk. split.
  - intros expected He Hne. apply truthy_str_spec in Hne.
    unfold require_csrf_token. rewrite He, Hne, Hk. cbn [default from_option id].
    split; [|split].
    + intros ->. cbn. rewrite bool_decide_eq_true_2 by reflexivity. reflexivity.
    + intros Hs. destruct supplied as [| | |s| |]; try reflexivity.
      cbn. rewrite bool_decide_eq_false_2; [reflexivity|]. congruence.
    + apply lookup_delete_eq.
  - intros He. unfold require_csrf_token. rewrite He. cbn. split; [reflexivity|exact Hk].
Qed.


(** Under a session the guard lets the handler run only on the derived
    token, supplied as a string, and then without the field; any other
    value, and a request without the field, is refused with
    [CsrfTokenError]. *)
Theorem require_csrf_token_decides {A}
    (func : list value -> gmap string value -> result A)
    (session : gmap string value) (sid : list byte)
    (args : list value) (kwargs : gmap string value) :
  session !! "_id" = Some (VBytes sid) ->
  (kwargs !! "csrf_token" = Some (VStr (_get_csrf_token sid)) ->
   require_csrf_token func session args kwargs
   = func args (delete "csrf_token" kwargs))
  /\ (kwargs !! "csrf_token" <> Some (VStr (_get_csrf_token sid)) ->
      require_csrf_token func session args kwargs
      = Raise (UserFacing CsrfTokenError)).
Proof.
  intros Hid.
  assert (Ht : csrf_token session = Ok (_get_csrf_token sid)).
  { unfold csrf_token.
    assert (Hs : truthy_dict session = true).
    { apply truthy_dict_spec. intros ->. rewrite lookup_empty in Hid. discriminate. }
    rewrite Hs, Hid. reflexivity. }
  pose proof (_get_csrf_token_non_empty sid) as Hnon.
  revert Ht Hnon. generalize (_get_csrf_token sid). intros tok Ht Hnon.
  assert (Hne : truthy_str tok = true) by (apply truthy_str_spec; exact Hnon).
  unfold require_csrf_token. rewrite Ht, Hne. split.
  - intros ->. cbn [default from_option id str_ne negb].
    rewrite bool_decide_eq_true_2 by reflexivity. reflexivity.
  - intros Hk. destruct (kwargs !! "csrf_token") as [v|];
      cbn [default from_option id str_ne].
    + destruct v as [| | |s| |]; cbn [str_ne]; try reflexivity.
      rewrite bool_decide_eq_false_2; [reflexivity|]. intros E. apply Hk. congruence.
    + rewrite bool_decide_eq_false_2; [reflexivity|]. exact Hnon.
Qed.

(** A non-empty session document without an [_id] makes the property, and
    so the guard, fail with the [KeyError] of the lookup; the handler is
    not called. *)
Theorem require_csrf_token_no_id {A}
    (func : list value -> gmap string value -> result A)
    (session : gmap string value) (args : list value)
    (kwargs : gmap string value) :
  session <> ∅ -> session !! "_id" = None ->
  csrf_token session = Raise (KeyError "_id")
  /\ require_csrf_token func session args kwargs = Raise (KeyError "_id").
Proof.
  intros Hs Hid. apply truthy_dict_spec in Hs.
  assert (Ht : csrf_token session = Raise (KeyError "_id")).
  { unfold csrf_token. rewrite Hs, Hid. reflexivity. }
  split; [exact Ht|]. unfold require_csrf_token. rewrite Ht. reflexivity.
Qed.

(** A session as the Token Store returns it, and the handler that echoes
    the keyword arguments it was called with. *)
Definition session1 : gmap string value :=
  {["_id" := VBytes ["001"; "002"; "003"; "004"]%byte; "uid" := VInt 7]}.

Definition echo (args : list value) (kwargs : gmap string value)
  : result (gmap string value) := Ok kwargs.

Example csrf_token_session1 :
  csrf_token session1 =
  Ok "094f316663d6fd0f8cef9d2abfebe705cf7923f00b3932db146914ea1c7e0dc1".
Proof. vm_compute. reflexivity. Qed.

Lemma csrf_token_derivation_witness :
  csrf_token session1 =
  Ok (Hmac.hexlify (Hmac.hmac_sha256 (Hmac.bytes_of_string "csrf_token")
                      ["001"; "002"; "003"; "004"]%byte))
  /\ csrf_token ∅ = Ok "".
Proof.
  split.
  - apply (proj1 csrf_token_derivation). reflexivity.
  - apply (proj1 (proj2 csrf_token_derivation)). reflexivity.
Defined.

Definition token1 : string :=
  "094f316663d6fd0f8cef9d2abfebe705cf7923f00b3932db146914ea1c7e0dc1".

(** C9 on the echo handler: with a session the field is checked and
    removed; without one a forged field reaches the handler. *)
Lemma require_csrf_token_pop_witness :
  require_csrf_token echo session1 []
    {["csrf_token" := VStr token1; "lid" := VStr "3"]}
  = Ok {["lid" := VStr "3"]}
  /\ require_csrf_token echo session1 []
       {["csrf_token" := VStr "forged"; "lid" := VStr "3"]}
     = Raise (UserFacing CsrfTokenError)
  /\ require_csrf_token echo ∅ []
       {["csrf_token" := VStr "forged"; "lid" := VStr "3"]}
     = Ok {["csrf_token" := VStr "forged"; "lid" := VStr "3"]}.
Proof.
  split; [|split].
  - destruct (require_csrf_token_pop echo session1 []
                {["csrf_token" := VStr token1; "lid" := VStr "3"]} (VStr token1))
      as [H _]; [apply lookup_insert_eq|].
    destruct (H token1 csrf_token_session1) as [Hmatch _]; [discriminate|].
    rewrite Hmatch by reflexivity. vm_compute. reflexivity.
  - destruct (require_csrf_token_pop echo session1 []
                {["csrf_token" := VStr "forged"; "lid" := VStr "3"]} (VStr "forged"))
      as [H _]; [apply lookup_insert_eq|].
    destruct (H token1 csrf_token_session1) as (_ & Hdiffer & _); [discriminate|].
    apply Hdiffer. discriminate.
  - destruct (require_csrf_token_pop echo ∅ []
                {["csrf_token" := VStr "forged"; "lid" := VStr "3"]} (VStr "forged"))
      as [_ H]; [apply lookup_insert_eq|].
    destruct H as [Hskip _]; [reflexivity|]. exact Hskip.
Defined.


(** Under [session1]: a request without the field is refused. *)
Lemma require_csrf_token_decides_witness :
  require_csrf_token echo session1 [] {["lid" := VStr "3"]}
  = Raise (UserFacing CsrfTokenError).
Proof.
  destruct (require_csrf_token_decides echo session1
              ["001"; "002"; "003"; "004"]%byte [] {["lid" := VStr "3"]})
    as [_ Hrefuse].
  - reflexivity.
  - apply Hrefuse. rewrite lookup_singleton_ne by discriminate. discriminate.
Defined.

Lemma require_csrf_token_no_id_witness :
  require_csrf_token echo {["uid" := VInt 7]} [] {["lid" := VStr "3"]}
  = Raise (KeyError "_id").
Proof.
  apply (require_csrf_token_no_id echo {["uid" := VInt 7]} [] {["lid" := VStr "3"]}).
  - apply insert_non_empty.
  - reflexivity.
Defined.

End Csrf.

(** ** View dispatch: [ViewBase.prepare], [View.__iter__], [prefer_json],
       [OperationView.post] *)

Module View.

(** What an external collaborator (a store, the router, the locale
    tables) answers: a value, or a failure of its own, which is never one
    of the user-facing errors. *)
Inductive outcome (A : Type) :=
| Done (a : A)
| Fail (name : string).
Arguments Done {A} a.
Arguments Fail {A} name.

Definition lift {A} (o : outcome A) : result A :=
  match o with
  | Done a => Ok a
  | Fail name => Raise (OtherError name)
  end.

(** An entry of [accept.parse(header)]. *)
Record MediaType := { media_type : string; all_types : bool }.

(** An element of a path: a pair of a name and a link, either possibly
    [None]. *)
Definition path_component : Type := option string * option string.

(** The dictionary [get_domain_context] returns; its two closures,
    [reverse_url] and [build_path], are [_reverse_url] and [_build_path]
    with the domain id fixed. *)
Record DomainContext := {
  dc_domain_id : string;
  dc_page_name : option string;
  dc_path_components : list path_component
}.

Inductive log_record :=
| LogWarning (message : string) (e : user_facing_error).

(** [self.response] without its cookies, which the session manager keeps. *)
Record Response := {
  status : Z;
  content_type : option string;
  text : option string
}.

(** [web.Response()] *)
Definition new_response : Response :=
  {| status := 200; content_type := None; text := None |}.

(** The keyword arguments [View.__iter__] gives [render] for an error. *)
Record render_kwargs := {
  kw_error : user_facing_error;
  kw_path_components : list path_component;
  kw_page_name : string;
  kw_page_title : string
}.

Section View.
Context {TokenStore User Domain LocaleContext Json : Type}.

(** The Token Store, the user and domain stores, the router, the locale
    tables. *)
Variable token_update :
  TokenStore -> string -> Session.token_type -> Z -> gmap string value ->
  outcome (option (gmap string value)) * TokenStore.
Variable token_add :
  TokenStore -> Session.token_type -> Z -> gmap string value ->
  outcome (string * gmap string value) * TokenStore.
Variable formatdate : Z -> string.
Variable options : Session.Options.
Variable request : Session.Request.
Variable accept_parse : option string -> list MediaType.
Variable user_get_by_uid : value -> outcome (option User).
Variable USER_GUEST : User.
Variable DOMAIN_ID_SYSTEM : string.
Variable domain_get : string -> outcome (option Domain).
Variable router_url : string -> gmap string string -> outcome string.
Variable get_locale_context : string -> string -> outcome LocaleContext.
Variable translate : LocaleContext -> string -> string.

(** [vj4.error]: what each user-facing error declares. *)
Variable http_status : user_facing_error -> Z.
Variable template_name : user_facing_error -> string.
Variable to_dict : user_facing_error -> Json.

(** [json.encode] of a dictionary of values that are JSON already. *)
Variable json_encode : gmap string Json -> string.

(** [cls.NAME] of the view class. *)
Variable NAME : option string.

(** What a handler can change: the Token Store with the response's
    cookies, the rest of the response, the log. *)
Record effects := {
  sess : Session.state TokenStore;
  response : Response;
  log : list log_record
}.

(** [self]: the attributes [prepare] binds, [None] while unbound. *)
Record view := {
  fx : effects;
  match_info : gmap string string;
  session : option (gmap string value);
  user : option User;
  locale_context : option LocaleContext;
  domain_id : option string;
  domain_context : option DomainContext;
  reverse_url : option string;
  build_path : option string;
  domain : option Domain
}.

(** [SettingMixin.get_setting] and the template engine read [self]. *)
Variable get_setting : view -> string -> outcome string.
Variable render_template :
  string -> view -> DomainContext -> LocaleContext -> render_kwargs -> string.

Definition set_fx (f : effects -> effects) (v : view) : view :=
  {| fx := f (fx v); match_info := match_info v; session := session v;
     user := user v; locale_context := locale_context v;
     domain_id := domain_id v; domain_context := domain_context v;
     reverse_url := reverse_url v; build_path := build_path v;
     domain := domain v |}.

Definition set_response (f : Response -> Response) : M view unit :=
  fun v => (Ok tt, set_fx (fun x => {| sess := sess x; response := f (response x);
                                       log := log x |}) v).

(** A computation of the session manager, run inside the view. *)
Definition in_session {A} (m : M (Session.state TokenStore) A) : M view A :=
  fun v =>
    let '(r, s) := m (sess (fx v)) in
    (r, set_fx (fun x => {| sess := s; response := response x; log := log x |}) v).

Definition call {A} (o : outcome A) : M view A := fun v => (lift o, v).

Definition update_session (new_saved : bool) (kwargs : gmap string value)
  : M view (gmap string value) :=
  in_session
    (Session.update_session TokenStore
       (fun t sid ty ttl fields =>
          let '(o, t') := token_update t sid ty ttl fields in (lift o, t'))
       (fun t ty ttl fields =>
          let '(o, t') := token_add t ty ttl fields in (lift o, t'))
       formatdate options request new_saved kwargs).

Definition _reverse_url (name : string) (domain_id : string)
    (kwargs : gmap string string) : outcome string :=
  if bool_decide (domain_id <> DOMAIN_ID_SYSTEM) then
    router_url (String.append name "_with_domain_id")
      (<["domain_id" := domain_id]> kwargs)
  else router_url name kwargs.

Definition _build_path (args : list path_component) (domain_id : string)
  : outcome (list path_component) :=
  match _reverse_url "main" domain_id ∅ with
  | Done url => Done ((Some domain_id, Some url) :: args)
  | Fail name => Fail name
  end.

Definition get_domain_context (domain_id : string) : outcome DomainContext :=
  match _build_path [(NAME, None)] domain_id with
  | Done path_components =>
      Done {| dc_domain_id := domain_id; dc_page_name := NAME;
              dc_path_components := path_components |}
  | Fail name => Fail name
  end.

(** The assignments to attributes of [self] that [prepare] makes. *)
Definition set_session (s : gmap string value) : M view unit :=
  fun v =>
    (Ok tt, {| fx := fx v; match_info := match_info v; session := Some s;
               user := user v; locale_context := locale_context v;
               domain_id := domain_id v; domain_context := domain_context v;
               reverse_url := reverse_url v; build_path := build_path v;
               domain := domain v |}).

Definition set_user (u : User) : M view unit :=
  fun v =>
    (Ok tt, {| fx := fx v; match_info := match_info v; session := session v;
               user := Some u; locale_context := locale_context v;
               domain_id := domain_id v; domain_context := domain_context v;
               reverse_url := reverse_url v; build_path := build_path v;
               domain := domain v |}).

Definition set_locale_context (lc : LocaleContext) : M view unit :=
  fun v =>
    (Ok tt, {| fx := fx v; match_info := match_info v; session := session v;
               user := user v; locale_context := Some lc;
               domain_id := domain_id v; domain_context := domain_context v;
               reverse_url := reverse_url v; build_path := build_path v;
               domain := domain v |}).

(** [self.domain_id = self.request.match_info.pop('domain_id', DOMAIN_ID_SYSTEM)] *)
Definition pop_domain_id : M view string :=
  fun v =>
    let d := default DOMAIN_ID_SYSTEM (match_info v !! "domain_id") in
    (Ok d, {| fx := fx v; match_info := delete "domain_id" (match_info v);
              session := session v; user := user v;
              locale_context := locale_context v; domain_id := Some d;
              domain_context := domain_context v;
              reverse_url := reverse_url v; build_path := build_path v;
              domain := domain v |}).

(** [self.domain_context], then [self.reverse_url] and [self.build_path]
    read off it. *)
Definition set_domain_context (dc : DomainContext) : M view unit :=
  fun v =>
    (Ok tt, {| fx := fx v; match_info := match_info v; session := session v;
               user := user v; locale_context := locale_context v;
               domain_id := domain_id v; domain_context := Some dc;
               reverse_url := Some (dc_domain_id dc);
               build_path := Some (dc_domain_id dc);
               domain := domain v |}).

Definition set_domain (dom : option Domain) : M view unit :=
  fun v =>
    (Ok tt, {| fx := fx v; match_info := match_info v; session := session v;
               user := user v; locale_context := locale_context v;
               domain_id := domain_id v; domain_context := domain_context v;
               reverse_url := reverse_url v; build_path := build_path v;
               domain := dom |}).

(** [self.get_setting(key)], which reads [self]. *)
Definition self_get_setting (key : string) : M view string :=
  fun v => call (get_setting v key) v.

Definition prepare : M view unit :=
  let* sdoc := update_session false ∅ in
  let* _ := set_session sdoc in
  let* u :=
    (if truthy_dict sdoc then
       match sdoc !! "uid" with
       | Some uid =>
           let* found := call (user_get_by_uid uid) in
           ret (default USER_GUEST found)
       | None => ret USER_GUEST
       end
     else ret USER_GUEST) in
  let* _ := set_user u in
  let* view_lang := self_get_setting "view_lang" in
  let* lc := call (get_locale_context view_lang "Asia/Shanghai") in
  let* _ := set_locale_context lc in
  let* d := pop_domain_id in
  let* dc := call (get_domain_context d) in
  let* _ := set_domain_context dc in
  let* dom := call (domain_get d) in
  let* _ := set_domain dom in
  match dom with
  | Some _ => ret tt
  | None => raise (UserFacing (DomainNotFoundError d))
  end.

(** [View.prefer_json]: the loop over the parsed [Accept] header. *)
Fixpoint prefer_json_scan (parsed : list MediaType) : bool :=
  match parsed with
  | [] => false
  | d :: rest =>
      if bool_decide (media_type d = "application/json") then true
      else if bool_decide (media_type d = "text/html") || all_types d then false
      else prefer_json_scan rest
  end.

Definition prefer_json : bool :=
  prefer_json_scan (accept_parse (Session.headers request !! "Accept")).

(** [View.render] with the keyword arguments of the error page. *)
Definition render (name : string) (kwargs : render_kwargs) : M view unit :=
  let* _ := set_response (fun r => {| status := status r;
                                      content_type := Some "text/html";
                                      text := text r |}) in
  let* html := (fun v =>
    match domain_context v, locale_context v with
    | Some dc, Some lc => (Ok (render_template name v dc lc kwargs), v)
    | None, _ => (Raise (AttributeError "domain_context"), v)
    | _, None => (Raise (AttributeError "locale_context"), v)
    end) in
  set_response (fun r => {| status := status r; content_type := content_type r;
                            text := Some html |}).

(** The [except error.UserFacingError as e:] branch of [View.__iter__]. *)
Definition on_user_facing_error (e : user_facing_error) : M view unit :=
  let* _ := (fun v =>
    (Ok tt, set_fx (fun x => {| sess := sess x; response := response x;
                                log := log x ++ [LogWarning "User facing error: %s" e] |}) v)) in
  let* _ := set_response (fun r => {| status := http_status e;
                                      content_type := content_type r;
                                      text := text r |}) in
  if prefer_json then
    let* _ := set_response (fun r => {| status := status r;
                                        content_type := Some "application/json";
                                        text := text r |}) in
    set_response (fun r => {| status := status r; content_type := content_type r;
                              text := Some (json_encode {["error" := to_dict e]}) |})
  else
    let* path_components := (fun v =>
      match build_path v with
      | Some d => call (_build_path [(Some "error", None)] d) v
      | None => (Raise (AttributeError "build_path"), v)
      end) in
    let* page_title := (fun v =>
      match locale_context v with
      | Some lc => (Ok (translate lc "error"), v)
      | None => (Raise (AttributeError "locale_context"), v)
      end) in
    render (template_name e)
      {| kw_error := e; kw_path_components := path_components;
         kw_page_name := "error"; kw_page_title := page_title |}.

(** A handler ([get], [post], ... as [web.View.__iter__] picks it) reads
    [self] and changes the effects. *)
Definition run_handler (handler : view -> result unit * effects) : M view unit :=
  fun v => let '(r, x) := handler v in (r, set_fx (fun _ => x) v).

(** [self.response = web.Response()]: a fresh response, without cookies. *)
Definition reset_response : M view unit :=
  fun v =>
    (Ok tt, set_fx (fun x =>
       {| sess := {| Session.tokens := Session.tokens (sess x);
                     Session.calls := Session.calls (sess x);
                     Session.response_cookies := ∅ |};
          response := new_response; log := log x |}) v).

(** The [try] block of [View.__iter__]. *)
Definition try_block (handler : view -> result unit * effects) : M view unit :=
  let* _ := reset_response in
  let* _ := prepare in
  run_handler handler.

(** [View.__iter__]: what it returns is [self.response], here with the
    cookies set on it. *)
Definition View_iter (handler : view -> result unit * effects)
  : M view (Response * gmap string Session.cookie) :=
  fun v =>
    let '(r, v1) := try_block handler v in
    let finish (v2 : view) :=
      (Ok (response (fx v2), Session.response_cookies (sess (fx v2))), v2) in
    match r with
    | Ok _ => finish v1
    | Raise (UserFacing e) =>
        match on_user_facing_error e v1 with
        | (Ok _, v2) => finish v2
        | (Raise x, v2) => (Raise x, v2)
        end
    | Raise x => (Raise x, v1)
    end.

(** [MultiDict.pop(key)]: every item under the key is removed, the value
    of the first one is returned; [None] stands for the [KeyError]. *)
Definition multidict_pop (key : string) (items : list (string * string))
  : option (string * list (string * string)) :=
  match filter (fun kv => fst kv = key) items with
  | [] => None
  | (_, v) :: _ => Some (v, filter (fun kv => fst kv <> key) items)
  end.

(** The keyword arguments of the call of [method] with [arguments]
    unpacked: one per key of the multidict, with the key's first value. *)
Definition as_kwargs (items : list (string * string)) : gmap string string :=
  list_to_map items.

(** [OperationView.post], given the form [self.request.post()] returned
    and the attributes of [self] whose names begin with [post_]. *)
Definition OperationView_post
    (attrs : gmap string (gmap string string -> view -> result unit * effects))
    (form : list (string * string)) : view -> result unit * effects :=
  fun v =>
    let arguments := form in
    match multidict_pop "operation" arguments with
    | None => (Raise (KeyError "operation"), fx v)
    | Some (operation, arguments) =>
        match attrs !! String.append "post_" operation with
        | None => (Raise (UserFacing (InvalidOperationError operation)), fx v)
        | Some method => method (as_kwargs arguments) v
        end
    end.

(** *** Properties of the dispatch *)

(** The attributes the error page needs are bound, and the link to the
    domain's main page resolves. *)
Definition context_built (v : view) : Prop :=
  exists d dc lc url,
    build_path v = Some d /\ domain_context v = Some dc
    /\ locale_context v = Some lc /\ _reverse_url "main" d ∅ = Done url.

Definition locale_bound (v : view) : Prop :=
  exists lc, locale_context v = Some lc.

Lemma lift_raises {A} (o : outcome A) x :
  lift o = Raise x -> Session.not_user_facing x.
Proof. destruct o; cbn; [discriminate|]. intros [= <-] e. discriminate. Qed.

Lemma update_session_view_raises new_saved kwargs v x v1 :
  update_session new_saved kwargs v = (Raise x, v1) -> Session.not_user_facing x.
Proof.
  unfold update_session, in_session.
  destruct (Session.update_session _ _ _ _ _ _ _ _ _) as [r s] eqn:E.
  intros [= -> _]. eapply Session.update_session_raises; [| |exact E].
  - intros t sid ty ttl fields y t'. cbv beta.
    destruct (token_update t sid ty ttl fields) as [o t2]. intros [= Hy _].
    eapply lift_raises, Hy.
  - intros t ty ttl fields y t'. cbv beta.
    destruct (token_add t ty ttl fields) as [o t2]. intros [= Hy _].
    eapply lift_raises, Hy.
Qed.

Lemma update_session_keeps new_saved kwargs v r v1 :
  update_session new_saved kwargs v = (r, v1) ->
  locale_context v1 = locale_context v /\ domain_context v1 = domain_context v
  /\ build_path v1 = build_path v.
Proof.
  unfold update_session, in_session.
  destruct (Session.update_session _ _ _ _ _ _ _ _ _) as [r0 s].
  intros [= _ <-]. repeat split.
Qed.

Lemma triple_update_session new_saved kwargs (P : view -> Prop) E :
  triple P (update_session new_saved kwargs) (fun _ _ => True) E.
Proof.
  intros v r v1 _ Eu. destruct r as [a|x]; [exact I|].
  apply update_session_view_raises in Eu. destruct x; try exact I.
  exfalso. eapply Eu. reflexivity.
Qed.

Lemma triple_call {A} (P : view -> Prop) (o : outcome A) E :
  triple P (call o) (fun a v => o = Done a /\ P v) E.
Proof.
  intros v r v1 HP. unfold call. destruct o; cbn; intros [= <- <-]; auto.
Qed.

Lemma triple_total {A} (P : view -> Prop) (m : M view A)
    (Q : A -> view -> Prop) E :
  (forall v, P v -> exists a v1, m v = (Ok a, v1) /\ Q a v1) ->
  triple P m Q E.
Proof.
  intros H v r v1 HP Em. destruct (H v HP) as (a & v2 & Em' & HQ).
  rewrite Em' in Em. injection Em as <- <-. exact HQ.
Qed.

Lemma get_domain_context_done d dc :
  get_domain_context d = Done dc ->
  dc_domain_id dc = d /\ exists url, _reverse_url "main" d ∅ = Done url.
Proof.
  unfold get_domain_context, _build_path.
  destruct (_reverse_url "main" d ∅) as [url|]; [|discriminate].
  intros [= <-]. split; [reflexivity | eexists; reflexivity].
Qed.

Lemma triple_prepare :
  triple (fun _ => True) prepare
    (fun _ v => context_built v) (fun _ v => context_built v).
Proof.
  unfold prepare.
  eapply triple_bind; [apply triple_update_session|]. intros sdoc.
  eapply triple_bind with (R := fun _ _ => True).
  { apply triple_total. intros v _. do 2 eexists. split; [reflexivity|exact I]. }
  intros _.
  eapply triple_bind with (R := fun _ _ => True).
  { intros v r v1 _.
    destruct (truthy_dict sdoc); [destruct (sdoc !! "uid") as [uid|]|];
      try (intros [= <- <-]; exact I).
    unfold bind, call. destruct (user_get_by_uid uid); cbn; intros [= <- <-]; exact I. }
  intros u.
  eapply triple_bind with (R := fun _ _ => True).
  { apply triple_total. intros v _. do 2 eexists. split; [reflexivity|exact I]. }
  intros _.
  eapply triple_bind with (R := fun _ _ => True).
  { intros v r v1 _. unfold self_get_setting, call.
    destruct (get_setting v "view_lang"); cbn; intros [= <- <-]; exact I. }
  intros view_lang.
  eapply triple_bind; [apply triple_call|]. intros lc.
  eapply triple_bind with (R := fun _ v => locale_bound v).
  { apply triple_total. intros v _. do 2 eexists. split; [reflexivity|].
    exists lc. reflexivity. }
  intros _.
  eapply triple_bind with (R := fun _ v => locale_bound v).
  { apply triple_total. intros v Hl. do 2 eexists. split; [reflexivity|exact Hl]. }
  intros d.
  eapply triple_bind; [apply triple_call|]. intros dc. cbv beta.
  eapply triple_bind with (R := fun _ v => context_built v).
  { apply triple_total. intros v [Hdc [lc' Hl]].
    apply get_domain_context_done in Hdc as [Hd [url Hurl]].
    do 2 eexists. split; [reflexivity|].
    exists d, dc, lc', url. cbn. rewrite Hd. auto. }
  intros _.
  eapply triple_bind; [apply triple_call|]. intros dom. cbv beta.
  eapply triple_bind with (R := fun _ v => context_built v).
  { apply triple_total. intros v [_ Hc]. do 2 eexists. split; [reflexivity|exact Hc]. }
  intros _.
  destruct dom.
  - intros v r v1 Hc [= <- <-]. exact Hc.
  - intros v r v1 Hc [= <- <-]. exact Hc.
Qed.

Lemma try_block_context handler v e v1 :
  try_block handler v = (Raise (UserFacing e), v1) -> context_built v1.
Proof.
  intros E.
  assert (H : triple (fun _ => True) (try_block handler)
                (fun _ _ => True) (fun _ v => context_built v)).
  { unfold try_block.
    eapply triple_bind with (R := fun _ _ => True).
    { apply triple_total. intros v0 _. do 2 eexists. split; [reflexivity|exact I]. }
    intros _.
    eapply triple_bind; [apply triple_prepare|]. intros u. cbv beta.
    intros v0 r v2 Hc. unfold run_handler. destruct (handler v0) as [r0 x].
    intros [= Hr Hv]. subst r v2. destruct r0 as [|[]]; try exact I.
    destruct Hc as (d & dc & lc & url & H1 & H2 & H3 & H4).
    exists d, dc, lc, url. auto. }
  exact (H v _ v1 I E).
Qed.

(** The error page, as [View.__iter__] asks for it. *)
Definition error_page (e : user_facing_error) (d url : string)
    (lc : LocaleContext) : render_kwargs :=
  {| kw_error := e;
     kw_path_components := [(Some d, Some url); (Some "error", None)];
     kw_page_name := "error";
     kw_page_title := translate lc "error" |}.

Lemma on_user_facing_error_json e v :
  prefer_json = true ->
  exists v2,
    on_user_facing_error e v = (Ok tt, v2)
    /\ log (fx v2) = log (fx v) ++ [LogWarning "User facing error: %s" e]
    /\ sess (fx v2) = sess (fx v)
    /\ response (fx v2) =
       {| status := http_status e; content_type := Some "application/json";
          text := Some (json_encode {["error" := to_dict e]}) |}.
Proof.
  intros Hj. unfold on_user_facing_error. rewrite Hj.
  eexists. split; [reflexivity|]. repeat split.
Qed.

Lemma on_user_facing_error_html e v d dc lc url :
  prefer_json = false ->
  build_path v = Some d -> domain_context v = Some dc ->
  locale_context v = Some lc -> _reverse_url "main" d ∅ = Done url ->
  exists v2 vr,
    on_user_facing_error e v = (Ok tt, v2)
    /\ log (fx v2) = log (fx v) ++ [LogWarning "User facing error: %s" e]
    /\ sess (fx v2) = sess (fx v)
    /\ response (fx v2) =
       {| status := http_status e; content_type := Some "text/html";
          text := Some (render_template (template_name e) vr dc lc
                          (error_page e d url lc)) |}.
Proof.
  intros Hj Hb Hdc Hlc Hurl. unfold on_user_facing_error. rewrite Hj.
  unfold bind at 1. cbn [set_fx]. unfold bind at 1. unfold set_response at 1.
  unfold bind at 1. cbn [build_path set_fx]. rewrite Hb.
  unfold call, _build_path. rewrite Hurl. cbn [lift].
  unfold bind at 1. cbn [locale_context set_fx]. rewrite Hlc.
  unfold render, bind, set_response. cbn. rewrite Hdc, Hlc.
  do 2 eexists. split; [reflexivity|]. repeat split.
Qed.

(** C7. When the preparation or the handler raises a user-facing error,
    [View.__iter__] logs it as a warning, sets the status the error
    declares and returns the response: for a client that prefers JSON the
    encoding of the dictionary with the error's [to_dict()] under [error],
    otherwise the error's template rendered with the error, the path of
    the domain's error page, the page name and its translated title. Any
    other exception leaves [View.__iter__] as it was raised, with the
    response untouched by the wrapper. *)
Theorem View_iter_translates
    (handler : view -> result unit * effects) (v : view) :
  (forall e v1,
     try_block handler v = (Raise (UserFacing e), v1) ->
     exists resp v2,
       View_iter handler v
       = (Ok (resp, Session.response_cookies (sess (fx v1))), v2)
       /\ log (fx v2) = log (fx v1) ++ [LogWarning "User facing error: %s" e]
       /\ status resp = http_status e
       /\ (prefer_json = true ->
           content_type resp = Some "application/json"
           /\ text resp = Some (json_encode {["error" := to_dict e]}))
       /\ (prefer_json = false ->
           content_type resp = Some "text/html"
           /\ exists vr d dc lc url,
                build_path v1 = Some d /\ domain_context v1 = Some dc
                /\ locale_context v1 = Some lc
                /\ _reverse_url "main" d ∅ = Done url
                /\ text resp = Some (render_template (template_name e) vr dc lc
                                       (error_page e d url lc))))
  /\ (forall x v1,
       try_block handler v = (Raise x, v1) -> Session.not_user_facing x ->
       View_iter handler v = (Raise x, v1)).
Proof.
  split.
  - intros e v1 Et. pose proof (try_block_context _ _ _ _ Et) as Hc.
    destruct Hc as (d & dc & lc & url & Hb & Hdc & Hlc & Hurl).
    unfold View_iter. rewrite Et.
    destruct prefer_json eqn:Hj.
    + destruct (on_user_facing_error_json e v1 Hj) as (v2 & E2 & Hlog & Hsess & Hresp).
      rewrite E2, Hsess, Hresp. do 2 eexists. split; [reflexivity|].
      split; [exact Hlog|]. split; [reflexivity|]. split; [auto|discriminate].
    + destruct (on_user_facing_error_html e v1 d dc lc url Hj Hb Hdc Hlc Hurl)
        as (v2 & vr & E2 & Hlog & Hsess & Hresp).
      rewrite E2, Hsess, Hresp. do 2 eexists. split; [reflexivity|].
      split; [exact Hlog|]. split; [reflexivity|]. split; [discriminate|].
      intros _. split; [reflexivity|]. exists vr, d, dc, lc, url. auto.
  - intros x v1 Et Hx. unfold View_iter. rewrite Et.
    destruct x; try reflexivity. exfalso. eapply Hx. reflexivity.
Qed.

(** An entry that decides nothing: neither JSON nor HTML nor the
    wildcard. *)
Definition undecided (d : MediaType) : Prop :=
  media_type d <> "application/json" /\ media_type d <> "text/html"
  /\ all_types d = false.

Lemma prefer_json_scan_skip pre rest :
  Forall undecided pre -> prefer_json_scan (pre ++ rest) = prefer_json_scan rest.
Proof.
  induction 1 as [|d pre (Hj & Hh & Ha) _ IH]; [reflexivity|].
  cbn. rewrite !bool_decide_eq_false_2, Ha by assumption. exact IH.
Qed.

(** C5. [prefer_json] answers at the first entry of the parsed [Accept]
    header that decides: true at [application/json], false at
    [text/html] or at a wildcard for all types; and false when no entry
    decides. So it is true for a header parsed to [application/json]
    alone, false for one parsed to [text/html] alone or to the wildcard
    alone, and false for a missing header, which parses to nothing. *)
Theorem prefer_json_first_match :
  (forall pre d post,
     accept_parse (Session.headers request !! "Accept") = pre ++ d :: post ->
     Forall undecided pre ->
     (media_type d = "application/json" -> prefer_json = true)
     /\ (media_type d <> "application/json" ->
         media_type d = "text/html" \/ all_types d = true ->
         prefer_json = false))
  /\ (Forall undecided (accept_parse (Session.headers request !! "Accept")) ->
      prefer_json = false)
  /\ (Session.headers request !! "Accept" = Some "application/json" ->
      accept_parse (Some "application/json")
      = [{| media_type := "application/json"; all_types := false |}] ->
      prefer_json = true)
  /\ (Session.headers request !! "Accept" = Some "text/html" ->
      accept_parse (Some "text/html")
      = [{| media_type := "text/html"; all_types := false |}] ->
      prefer_json = false)
  /\ (Session.headers request !! "Accept" = Some "*/*" ->
      accept_parse (Some "*/*")
      = [{| media_type := "*/*"; all_types := true |}] ->
      prefer_json = false)
  /\ (Session.headers request !! "Accept" = None ->
      accept_parse None = [] ->
      prefer_json = false).
Proof.
  unfold prefer_json. split; [|split; [|repeat split]].
  - intros pre d post Hparsed Hpre.
    rewrite Hparsed, prefer_json_scan_skip by assumption.
    cbn [prefer_json_scan]. split.
    + intros Hd. rewrite bool_decide_eq_true_2 by assumption. reflexivity.
    + intros Hn Hd. rewrite bool_decide_eq_false_2 by assumption.
      destruct Hd as [Hh|Ha].
      * rewrite bool_decide_eq_true_2 by assumption. reflexivity.
      * rewrite Ha, orb_true_r. reflexivity.
  - intros Hall. rewrite <- (app_nil_r (accept_parse _)).
    rewrite prefer_json_scan_skip by assumption. reflexivity.
  - intros -> ->. reflexivity.
  - intros -> ->. reflexivity.
  - intros -> ->. reflexivity.
  - intros -> ->. reflexivity.
Qed.

Lemma multidict_pop_absent key items :
  (forall v, (key, v) ∉ items) -> multidict_pop key items = None.
Proof.
  intros Habs. unfold multidict_pop.
  destruct (filter (fun kv => fst kv = key) items) as [|[k v] rest] eqn:E;
    [reflexivity|].
  assert (Hin : (k, v) ∈ filter (fun kv => fst kv = key) items)
    by (rewrite E; left).
  apply list_elem_of_filter in Hin as [Hk Hin]. cbn in Hk. subst k.
  destruct (Habs v Hin).
Qed.

Lemma filter_key_absent key (pre : list (string * string)) :
  (forall w, (key, w) ∉ pre) -> filter (fun kv => fst kv = key) pre = [].
Proof.
  induction pre as [|[k w] pre IH]; intros Habs; [reflexivity|].
  rewrite filter_cons_False.
  - apply IH. intros w' Hin. apply (Habs w'). right. exact Hin.
  - cbn. intros ->. apply (Habs w). left.
Qed.

Lemma multidict_pop_first key pre v post :
  (forall w, (key, w) ∉ pre) ->
  multidict_pop key (pre ++ (key, v) :: post)
  = Some (v, filter (fun kv => fst kv <> key) (pre ++ (key, v) :: post)).
Proof.
  intros Hpre. unfold multidict_pop.
  rewrite (filter_app (fun kv => fst kv = key)), (filter_key_absent _ _ Hpre).
  rewrite filter_cons_True by reflexivity. reflexivity.
Qed.

(** C1 (what the code does). A form without an [operation] field makes
    [OperationView.post] raise the [KeyError] of the failed [pop]: the
    lookup of the field stands outside the [try] that turns a missing
    handler into [InvalidOperationError]. *)
Theorem post_missing_operation
    (attrs : gmap string (gmap string string -> view -> result unit * effects))
    (form : list (string * string)) (v : view) :
  (forall value, ("operation", value) ∉ form) ->
  OperationView_post attrs form v = (Raise (KeyError "operation"), fx v).
Proof.
  intros Habs. unfold OperationView_post.
  rewrite (multidict_pop_absent _ _ Habs). reflexivity.
Qed.

(** The other half of the claim holds: an operation without a handler is
    refused with [InvalidOperationError], carrying its name. *)
Lemma post_unknown_operation
    (attrs : gmap string (gmap string string -> view -> result unit * effects))
    (pre post : list (string * string)) (operation : string) (v : view) :
  (forall w, ("operation", w) ∉ pre) ->
  attrs !! String.append "post_" operation = None ->
  OperationView_post attrs (pre ++ ("operation", operation) :: post) v
  = (Raise (UserFacing (InvalidOperationError operation)), fx v).
Proof.
  intros Hpre Hnone. unfold OperationView_post.
  rewrite (multidict_pop_first _ _ _ _ Hpre), Hnone. reflexivity.
Qed.

Lemma post_known_operation
    (attrs : gmap string (gmap string string -> view -> result unit * effects))
    (pre post : list (string * string)) (operation : string) method (v : view) :
  (forall w, ("operation", w) ∉ pre) ->
  attrs !! String.append "post_" operation = Some method ->
  OperationView_post attrs (pre ++ ("operation", operation) :: post) v
  = method (as_kwargs (filter (fun kv => fst kv <> "operation")
                         (pre ++ ("operation", operation) :: post))) v.
Proof.
  intros Hpre Hsome. unfold OperationView_post.
  rewrite (multidict_pop_first _ _ _ _ Hpre), Hsome. reflexivity.
Qed.

(** Through [View.__iter__] the [KeyError] is not translated: it leaves
    the wrapper as raised. *)
Lemma View_iter_missing_operation attrs form v vp :
  (forall value, ("operation", value) ∉ form) ->
  prepare (snd (reset_response v)) = (Ok tt, vp) ->
  View_iter (OperationView_post attrs form) v
  = (Raise (KeyError "operation"), set_fx (fun _ => fx vp) vp).
Proof.
  intros Habs Ep. unfold View_iter, try_block. unfold bind at 1.
  change (reset_response v) with (Ok tt, snd (reset_response v)).
  cbv iota. unfold bind at 1. rewrite Ep. unfold run_handler, OperationView_post.
  rewrite (multidict_pop_absent _ _ Habs). reflexivity.
Qed.

(** *** More on the dispatch: what [prepare] binds, the argument
    decorators, the operation handlers *)

(** The attributes of [self] other than the effects. *)
Definition attrs_are (mi : gmap string string)
    (s : option (gmap string value)) (u : option User)
    (lc : option LocaleContext) (d : option string)
    (dc : option DomainContext) (bp : option string) (dom : option Domain)
    (v : view) : Prop :=
  match_info v = mi /\ session v = s /\ user v = u /\ locale_context v = lc
  /\ domain_id v = d /\ domain_context v = dc /\ build_path v = bp
  /\ domain v = dom.

Lemma attrs_are_set_fx mi s u lc d dc bp dom f v :
  attrs_are mi s u lc d dc bp dom v -> attrs_are mi s u lc d dc bp dom (set_fx f v).
Proof. intros H. exact H. Qed.

Lemma update_session_attrs new_saved kwargs v r v1 :
  update_session new_saved kwargs v = (r, v1) -> v1 = set_fx (fun _ => fx v1) v.
Proof.
  unfold update_session, in_session.
  destruct (Session.update_session _ _ _ _ _ _ _ _ _) as [r0 s].
  intros [= _ <-]. reflexivity.
Qed.

Lemma triple_pure {A} (phi : Prop) (P : view -> Prop) (m : M view A) Q E :
  (phi -> triple P m Q E) -> triple (fun v => phi /\ P v) m Q E.
Proof. intros H v r v1 [Hphi HP]. exact (H Hphi v r v1 HP). Qed.

(** What [prepare] found out about the user, given the session. *)
Definition user_resolved (sdoc : gmap string value) (u : User) : Prop :=
  match sdoc !! "uid" with
  | None => u = USER_GUEST
  | Some uid =>
      match user_get_by_uid uid with
      | Done (Some found) => u = found
      | Done None => u = USER_GUEST
      | Fail _ => False
      end
  end.

Lemma triple_prepare_attrs mi s0 u0 lc0 d0 dc0 bp0 dom0 :
  let d := default DOMAIN_ID_SYSTEM (mi !! "domain_id") in
  triple (attrs_are mi s0 u0 lc0 d0 dc0 bp0 dom0) prepare
    (fun _ v =>
       exists sdoc u lc dc dom,
         user_resolved sdoc u /\ get_domain_context d = Done dc
         /\ domain_get d = Done (Some dom)
         /\ attrs_are (delete "domain_id" mi) (Some sdoc) (Some u) (Some lc)
              (Some d) (Some dc) (Some d) (Some dom) v)
    (fun e v =>
       exists sdoc u lc dc,
         e = DomainNotFoundError d
         /\ user_resolved sdoc u /\ get_domain_context d = Done dc
         /\ domain_get d = Done None
         /\ attrs_are (delete "domain_id" mi) (Some sdoc) (Some u) (Some lc)
              (Some d) (Some dc) (Some d) None v).
Proof.
  intros d. unfold prepare.
  eapply triple_bind with (R := fun _ v => attrs_are mi s0 u0 lc0 d0 dc0 bp0 dom0 v).
  { intros v r v1 Hv Eu. pose proof (update_session_attrs _ _ _ _ _ Eu) as Hv1.
    assert (Hattrs : attrs_are mi s0 u0 lc0 d0 dc0 bp0 dom0 v1)
      by (rewrite Hv1; exact Hv).
    destruct r as [a|x]; [exact Hattrs|].
    apply update_session_view_raises in Eu. destruct x; try exact I.
    exfalso. eapply Eu. reflexivity. }
  intros sdoc.
  eapply triple_bind
    with (R := fun _ v => attrs_are mi (Some sdoc) u0 lc0 d0 dc0 bp0 dom0 v).
  { apply triple_total. intros v (H1 & H2 & H3 & H4 & H5 & H6 & H7 & H8).
    do 2 eexists. split; [reflexivity|]. repeat split; assumption. }
  intros _.
  eapply triple_bind
    with (R := fun u v => user_resolved sdoc u
                          /\ attrs_are mi (Some sdoc) u0 lc0 d0 dc0 bp0 dom0 v).
  { intros v r v1 Hv. unfold user_resolved.
    destruct (truthy_dict sdoc) eqn:Et.
    - destruct (sdoc !! "uid") as [uid|].
      + unfold bind, call. destruct (user_get_by_uid uid) as [[found|]|];
          cbn; intros [= <- <-]; auto.
      + intros [= <- <-]. auto.
    - assert (sdoc = ∅) as ->.
      { unfold truthy_dict in Et. apply negb_false_iff, bool_decide_eq_true in Et.
        exact Et. }
      rewrite lookup_empty. intros [= <- <-]. auto. }
  intros u. apply triple_pure. intros Hu.
  eapply triple_bind
    with (R := fun _ v => attrs_are mi (Some sdoc) (Some u) lc0 d0 dc0 bp0 dom0 v).
  { apply triple_total. intros v (H1 & H2 & H3 & H4 & H5 & H6 & H7 & H8).
    do 2 eexists. split; [reflexivity|]. repeat split; assumption. }
  intros _.
  eapply triple_bind
    with (R := fun _ v => attrs_are mi (Some sdoc) (Some u) lc0 d0 dc0 bp0 dom0 v).
  { intros v r v1 Hv. unfold self_get_setting, call.
    destruct (get_setting v "view_lang"); cbn; intros [= <- <-]; auto. }
  intros view_lang.
  eapply triple_bind
    with (R := fun _ v => attrs_are mi (Some sdoc) (Some u) lc0 d0 dc0 bp0 dom0 v).
  { intros v r v1 Hv. unfold call.
    destruct (get_locale_context view_lang "Asia/Shanghai"); cbn;
      intros [= <- <-]; auto. }
  intros lc.
  eapply triple_bind
    with (R := fun _ v => attrs_are mi (Some sdoc) (Some u) (Some lc) d0 dc0 bp0 dom0 v).
  { apply triple_total. intros v (H1 & H2 & H3 & H4 & H5 & H6 & H7 & H8).
    do 2 eexists. split; [reflexivity|]. repeat split; assumption. }
  intros _.
  eapply triple_bind
    with (R := fun d' v => d' = d
                 /\ attrs_are (delete "domain_id" mi) (Some sdoc) (Some u) (Some lc)
                      (Some d) dc0 bp0 dom0 v).
  { apply triple_total. intros v (H1 & H2 & H3 & H4 & H5 & H6 & H7 & H8).
    do 2 eexists. split; [reflexivity|]. cbn. rewrite H1.
    repeat split; assumption. }
  intros d'. apply triple_pure. intros ->.
  eapply triple_bind; [apply triple_call|]. intros dc. cbv beta.
  apply triple_pure. intros Hdc.
  pose proof (get_domain_context_done _ _ Hdc) as [Hdcd _].
  eapply triple_bind
    with (R := fun _ v => attrs_are (delete "domain_id" mi) (Some sdoc) (Some u)
                            (Some lc) (Some d) (Some dc) (Some d) dom0 v).
  { apply triple_total. intros v (H1 & H2 & H3 & H4 & H5 & H6 & H7 & H8).
    do 2 eexists. split; [reflexivity|]. cbn. rewrite Hdcd.
    repeat split; assumption. }
  intros _.
  eapply triple_bind; [apply triple_call|]. intros dom. cbv beta.
  apply triple_pure. intros Hdom.
  eapply triple_bind
    with (R := fun _ v => attrs_are (delete "domain_id" mi) (Some sdoc) (Some u)
                            (Some lc) (Some d) (Some dc) (Some d) dom v).
  { apply triple_total. intros v (H1 & H2 & H3 & H4 & H5 & H6 & H7 & H8).
    do 2 eexists. split; [reflexivity|]. repeat split; assumption. }
  intros _.
  destruct dom as [dom|].
  - intros v r v1 Hv [= <- <-]. exists sdoc, u, lc, dc, dom. auto.
  - intros v r v1 Hv [= <- <-]. exists sdoc, u, lc, dc. auto.
Qed.

Lemma attrs_are_self v :
  attrs_are (match_info v) (session v) (user v) (locale_context v) (domain_id v)
    (domain_context v) (build_path v) (domain v) v.
Proof. repeat split. Qed.

(** After a successful [prepare] the domain is the one the route names,
    or the system domain when the route names none, and it exists; the
    route's [domain_id] has been taken out of [match_info]; the session
    is bound, and the user is bound to the user the session's [uid]
    names, or to the guest when the session has no [uid] or the user is
    not found: never left unbound. *)
Theorem prepare_binds (v v1 : view) :
  prepare v = (Ok tt, v1) ->
  let d := default DOMAIN_ID_SYSTEM (match_info v !! "domain_id") in
  match_info v1 = delete "domain_id" (match_info v)
  /\ match_info v1 !! "domain_id" = None
  /\ domain_id v1 = Some d
  /\ (exists dom, domain v1 = Some dom /\ domain_get d = Done (Some dom))
  /\ (exists sdoc u,
        session v1 = Some sdoc /\ user v1 = Some u /\ user_resolved sdoc u).
Proof.
  intros Ep d.
  pose proof (triple_prepare_attrs _ _ _ _ _ _ _ _ v (Ok tt) v1 (attrs_are_self v) Ep)
    as (sdoc & u & lc & dc & dom & Hu & _ & Hdom & Hmi & Hs & Huser & _ & Hd & _ & _ & Hdomain).
  split; [exact Hmi|]. split; [rewrite Hmi; apply lookup_delete_eq|].
  split; [exact Hd|]. split; [exists dom; auto|]. exists sdoc, u. auto.
Qed.

(** The only user-facing error [prepare] raises is [DomainNotFoundError]
    for the domain of the route (the system domain by default), and it
    raises it only when the domain store answered that there is no such
    domain; and when the store answers so, [prepare] cannot succeed. *)
Theorem prepare_domain_not_found (v v1 : view) (r : result unit) :
  prepare v = (r, v1) ->
  let d := default DOMAIN_ID_SYSTEM (match_info v !! "domain_id") in
  (forall e, r = Raise (UserFacing e) ->
     e = DomainNotFoundError d /\ domain_get d = Done None /\ domain v1 = None)
  /\ (domain_get d = Done None -> r <> Ok tt).
Proof.
  intros Ep d.
  pose proof (triple_prepare_attrs _ _ _ _ _ _ _ _ v r v1 (attrs_are_self v) Ep) as H.
  split.
  - intros e ->. destruct H as (sdoc & u & lc & dc & -> & _ & _ & Hnone & Hattrs).
    split; [reflexivity|]. split; [exact Hnone|]. apply Hattrs.
  - intros Hnone ->. destruct H as (sdoc & u & lc & dc & dom & _ & _ & Hdom & _).
    fold d in Hdom. rewrite Hnone in Hdom. discriminate.
Qed.

(** [route_argument(func)]: the call of [func] with the keyword arguments
    and the route's parameters unpacked side by side, where a name given
    twice is a [TypeError]. *)
Definition merge_kwargs (kwargs extra : gmap string string)
  : result (gmap string string) :=
  if bool_decide (dom kwargs ∩ dom extra = ∅) then Ok (kwargs ∪ extra)
  else Raise (TypeError "got multiple values for keyword argument").

Definition route_argument
    (func : gmap string string -> view -> result unit * effects)
    (kwargs : gmap string string) : view -> result unit * effects :=
  fun v =>
    match merge_kwargs kwargs (match_info v) with
    | Ok all => func all v
    | Raise e => (Raise e, fx v)
    end.

(** A handler under [route_argument] receives every parameter of the
    route beside its own arguments; when a name occurs on both sides the
    call fails with a [TypeError] and the handler does not run. After
    [prepare], the route's [domain_id] is not among what it receives. *)
Theorem route_argument_merges
    (func : gmap string string -> view -> result unit * effects)
    (kwargs : gmap string string) (v : view) :
  ((forall k, is_Some (kwargs !! k) -> match_info v !! k = None) ->
   route_argument func kwargs v = func (kwargs ∪ match_info v) v)
  /\ (forall k, is_Some (kwargs !! k) -> is_Some (match_info v !! k) ->
      route_argument func kwargs v
      = (Raise (TypeError "got multiple values for keyword argument"), fx v))
  /\ (forall v0, prepare v0 = (Ok tt, v) ->
      kwargs !! "domain_id" = None ->
      (forall k, is_Some (kwargs !! k) -> match_info v !! k = None) ->
      exists all, route_argument func kwargs v = func all v
                  /\ all !! "domain_id" = None).
Proof.
  assert (Hdisj : (forall k, is_Some (kwargs !! k) -> match_info v !! k = None) ->
                  route_argument func kwargs v = func (kwargs ∪ match_info v) v).
  { intros Hd. unfold route_argument, merge_kwargs.
    rewrite bool_decide_eq_true_2; [reflexivity|].
    apply set_eq. intros k. rewrite elem_of_intersection, !elem_of_dom.
    split; [|intros Hk; apply elem_of_empty in Hk; contradiction].
    intros [Hk Hm]. rewrite (Hd k Hk) in Hm. destruct Hm as [? Hm]. discriminate. }
  split; [exact Hdisj|]. split.
  - intros k Hk Hm. unfold route_argument, merge_kwargs.
    rewrite bool_decide_eq_false_2; [reflexivity|].
    intros Hempty. apply (not_elem_of_empty (C := gset string) k).
    rewrite <- Hempty, elem_of_intersection, !elem_of_dom. auto.
  - intros v0 Ep Hk Hd. exists (kwargs ∪ match_info v).
    split; [exact (Hdisj Hd)|].
    apply prepare_binds in Ep as (_ & Hmi & _).
    apply lookup_union_None. auto.
Qed.

(** [OperationView.post] on a form with one [operation] field that names
    a handler: the handler is called with every other field of the form
    as a keyword argument, and without the [operation] field. *)
Theorem post_passes_other_fields
    (attrs : gmap string (gmap string string -> view -> result unit * effects))
    (pre post : list (string * string)) (operation : string)
    (method : gmap string string -> view -> result unit * effects) (v : view) :
  (forall w, ("operation", w) ∉ pre) -> (forall w, ("operation", w) ∉ post) ->
  attrs !! String.append "post_" operation = Some method ->
  OperationView_post attrs (pre ++ ("operation", operation) :: post) v
  = method (list_to_map (pre ++ post)) v
  /\ (list_to_map (pre ++ post) : gmap string string) !! "operation" = None.
Proof using.
  intros Hpre Hpost Hm.
  assert (Hkeep : forall l : list (string * string),
            (forall w, ("operation", w) ∉ l) ->
            filter (fun kv => fst kv <> "operation") l = l
            /\ filter (fun kv => fst kv = "operation") l = []).
  { clear. induction l as [|[k w] l IH]; intros Hl; [split; reflexivity|].
    assert (Hk : k <> "operation").
    { intros Hk. apply (Hl w). rewrite Hk. left. }
    destruct IH as [IH1 IH2].
    { intros w' Hin. apply (Hl w'). right. exact Hin. }
    rewrite filter_cons_True by exact Hk.
    rewrite filter_cons_False by (cbn; intros E; exact (Hk E)).
    rewrite IH1, IH2. split; reflexivity. }
  destruct (Hkeep pre Hpre) as [Hpre1 Hpre2].
  destruct (Hkeep post Hpost) as [Hpost1 Hpost2].
  split.
  - unfold OperationView_post, multidict_pop.
    rewrite !filter_app, Hpre1, Hpre2.
    rewrite filter_cons_True by reflexivity.
    rewrite filter_cons_False by (cbn; intros E; exact (E eq_refl)).
    rewrite Hpost1. cbn [app]. rewrite Hm. reflexivity.
  - apply not_elem_of_list_to_map_1. intros Hin.
    apply list_elem_of_fmap in Hin as ([k w] & Hk & Hin). cbn in Hk.
    apply elem_of_app in Hin as [Hin|Hin]; rewrite <- Hk in Hin;
      [exact (Hpre w Hin) | exact (Hpost w Hin)].
Qed.

(** A computation that keeps a property of the state, however it ends. *)
Definition keeps {A} (I : view -> Prop) (m : M view A) : Prop :=
  forall v r v1, I v -> m v = (r, v1) -> I v1.

Lemma keeps_bind {A B} (I : view -> Prop) (m : M view A) (k : A -> M view B) :
  keeps I m -> (forall a, keeps I (k a)) -> keeps I (bind m k).
Proof.
  intros Hm Hk v r v1 Hv. unfold bind.
  destruct (m v) as [[a|x] va] eqn:Em.
  - intros Ek. exact (Hk a va r v1 (Hm v _ va Hv Em) Ek).
  - intros [= _ <-]. exact (Hm v _ va Hv Em).
Qed.

Lemma keeps_total {A} (I : view -> Prop) (m : M view A) :
  (forall v, I v -> exists r v1, m v = (r, v1) /\ I v1) -> keeps I m.
Proof.
  intros H v r v1 Hv Em. destruct (H v Hv) as (r' & v' & Em' & Hv').
  rewrite Em' in Em. injection Em as _ <-. exact Hv'.
Qed.

Ltac keeps_steps :=
  repeat first
    [ apply keeps_bind; [|intros ?]
    | apply keeps_total; intros w Hw; do 2 eexists; split; [reflexivity|exact Hw] ].

(** The effects of [prepare] are those of its [update_session], and the
    session it binds is the one [update_session] returned. *)
Lemma prepare_effects v r v1 :
  prepare v = (r, v1) ->
  exists r0 va,
    update_session false ∅ v = (r0, va) /\ fx v1 = fx va
    /\ (forall sdoc, r0 = Ok sdoc -> session v1 = Some sdoc).
Proof.
  unfold prepare. unfold bind at 1.
  destruct (update_session false ∅ v) as [[sdoc|x] va] eqn:Eu.
  2:{ intros [= _ <-]. do 2 eexists. split; [reflexivity|].
      split; [reflexivity|]. intros sdoc [=]. }
  unfold bind at 1. cbn [set_session]. cbv beta iota.
  intros Erest. exists (Ok sdoc), va. split; [reflexivity|].
  assert (Hk : forall x, keeps (fun w => fx w = x /\ session w = Some sdoc)
    (let* u :=
       (if truthy_dict sdoc then
          match sdoc !! "uid" with
          | Some uid =>
              let* found := call (user_get_by_uid uid) in
              ret (default USER_GUEST found)
          | None => ret USER_GUEST
          end
        else ret USER_GUEST) in
     let* _ := set_user u in
     let* view_lang := self_get_setting "view_lang" in
     let* lc := call (get_locale_context view_lang "Asia/Shanghai") in
     let* _ := set_locale_context lc in
     let* d := pop_domain_id in
     let* dc := call (get_domain_context d) in
     let* _ := set_domain_context dc in
     let* dom := call (domain_get d) in
     let* _ := set_domain dom in
     match dom with
     | Some _ => ret tt
     | None => raise (UserFacing (DomainNotFoundError d))
     end)).
  { intros x. keeps_steps.
    - destruct (truthy_dict sdoc); [destruct (sdoc !! "uid")|]; keeps_steps.
    - match goal with
      | |- keeps _ (match ?dom with _ => _ end) => destruct dom
      end; keeps_steps. }
  eapply (Hk (fx va)) in Erest; [|split; reflexivity].
  destruct Erest as [Hfx Hs].
  split; [exact Hfx|]. intros sdoc' [= <-]. exact Hs.
Qed.

(** A request without a session id: [prepare] asks nothing of the Token
    Store, leaves the response and the log as they are apart from
    overwriting the empty [sid] or the stray [save] cookie the request
    may carry, and, when it succeeds, binds the empty session and the
    guest user. *)
Theorem prepare_anonymous (v v1 : view) (r : result unit) :
  truthy_opt_str (Session.cookies request !! "sid") = false ->
  prepare v = (r, v1) ->
  Session.tokens (sess (fx v1)) = Session.tokens (sess (fx v))
  /\ Session.calls (sess (fx v1)) = Session.calls (sess (fx v))
  /\ response (fx v1) = response (fx v)
  /\ log (fx v1) = log (fx v)
  /\ Session.cleared_present formatdate options request (sess (fx v)) (sess (fx v1))
  /\ (r = Ok tt -> session v1 = Some ∅ /\ user v1 = Some USER_GUEST).
Proof.
  intros Hsid Ep.
  destruct (prepare_effects _ _ _ Ep) as (r0 & va & Eu & Hfx & Hsess).
  unfold update_session, in_session in Eu.
  rewrite Session.update_session_anonymous in Eu by exact Hsid.
  injection Eu as <- <-. rewrite Hfx. cbn [fx set_fx sess response log].
  cbn [Session.tokens Session.calls].
  split; [reflexivity|]. split; [reflexivity|]. split; [reflexivity|].
  split; [reflexivity|]. split.
  - intros name. apply Session.cleared_jar_lookup.
  - intros ->. specialize (Hsess ∅ eq_refl). split; [exact Hsess|].
    apply prepare_binds in Ep as (_ & _ & _ & _ & sdoc & u & Hs & Hu & Hres).
    rewrite Hsess in Hs. injection Hs as <-. rewrite Hu.
    unfold user_resolved in Hres. rewrite lookup_empty in Hres. congruence.
Qed.

Lemma try_block_prepare_raises handler v x v1 :
  prepare (snd (reset_response v)) = (Raise x, v1) ->
  try_block handler v = (Raise x, v1).
Proof.
  intros Ep. unfold try_block. unfold bind at 1.
  change (reset_response v) with (Ok tt, snd (reset_response v)).
  cbv iota. unfold bind at 1. rewrite Ep. reflexivity.
Qed.

(** A request for a domain that does not exist never reaches its
    handler: [View.__iter__] gives the same result whatever the handler
    is. When it returns a response, that response is the translation of
    [DomainNotFoundError] for the domain of the route: its status, one
    warning in the log; and for a request without cookies the response
    sets no cookie and the Token Store has not been asked anything. *)
Theorem View_iter_unknown_domain (v : view) :
  let d := default DOMAIN_ID_SYSTEM (match_info v !! "domain_id") in
  domain_get d = Done None ->
  (forall handler handler', View_iter handler v = View_iter handler' v)
  /\ (forall handler resp jar v2,
       View_iter handler v = (Ok (resp, jar), v2) ->
       status resp = http_status (DomainNotFoundError d)
       /\ log (fx v2)
          = log (fx v) ++ [LogWarning "User facing error: %s" (DomainNotFoundError d)]
       /\ (Session.cookies request = ∅ ->
           jar = ∅
           /\ Session.calls (sess (fx v2)) = Session.calls (sess (fx v))
           /\ Session.tokens (sess (fx v2)) = Session.tokens (sess (fx v)))).
Proof.
  intros d Hnone.
  destruct (prepare (snd (reset_response v))) as [r v1] eqn:Ep.
  pose proof (prepare_domain_not_found _ _ _ Ep) as [Huf Hnot].
  cbn [reset_response snd set_fx match_info] in Huf, Hnot. fold d in Huf, Hnot.
  specialize (Hnot Hnone).
  destruct r as [[]|x]; [contradiction|].
  assert (Htry : forall handler, try_block handler v = (Raise x, v1))
    by (intros handler; apply try_block_prepare_raises; exact Ep).
  split.
  - intros handler handler'. unfold View_iter. rewrite !Htry. reflexivity.
  - intros handler resp jar v2. unfold View_iter. rewrite Htry.
    destruct x as [e| | | |]; try discriminate.
    destruct (Huf e eq_refl) as (-> & _ & _).
    pose proof (try_block_context handler _ _ _ (Htry handler))
      as (d' & dc & lc & url & Hb & Hdc & Hlc & Hurl).
    assert (Hfx1 : log (fx v1) = log (fx v)
              /\ (Session.cookies request = ∅ ->
                  Session.response_cookies (sess (fx v1)) = ∅
                  /\ Session.calls (sess (fx v1)) = Session.calls (sess (fx v))
                  /\ Session.tokens (sess (fx v1)) = Session.tokens (sess (fx v)))).
    { split.
      - destruct (prepare_effects _ _ _ Ep) as (r0 & va & Eu & Hfx & _).
        rewrite Hfx. unfold update_session, in_session in Eu.
        destruct (Session.update_session _ _ _ _ _ _ _ _ _) as [r1 s] in Eu.
        injection Eu as _ <-. reflexivity.
      - intros Hcookies.
        assert (Hsid : truthy_opt_str (Session.cookies request !! "sid") = false)
          by (rewrite Hcookies, lookup_empty; reflexivity).
        destruct (prepare_anonymous _ _ _ Hsid Ep) as (Htok & Hcalls & _ & _ & Hjar & _).
        split; [|split; [exact Hcalls | exact Htok]].
        apply map_eq. intros name. rewrite (Hjar name).
        rewrite bool_decide_eq_false_2; [reflexivity|].
        rewrite Hcookies, lookup_empty. intros [_ [? Hcontra]]. discriminate. }
    destruct Hfx1 as [Hlog1 Hquiet].
    destruct prefer_json eqn:Hj.
    + destruct (on_user_facing_error_json (DomainNotFoundError d) v1 Hj)
        as (v2' & E2 & Hlog & Hsess & Hresp).
      rewrite E2. intros [= <- <- <-]. rewrite Hresp, Hlog, Hlog1, Hsess.
      split; [reflexivity|]. split; [reflexivity|]. exact Hquiet.
    + destruct (on_user_facing_error_html (DomainNotFoundError d) v1 d' dc lc url
                  Hj Hb Hdc Hlc Hurl) as (v2' & vr & E2 & Hlog & Hsess & Hresp).
      rewrite E2. intros [= <- <- <-]. rewrite Hresp, Hlog, Hlog1, Hsess.
      split; [reflexivity|]. split; [reflexivity|]. exact Hquiet.
Qed.

End View.

Arguments fx {TokenStore User Domain LocaleContext} _.
Arguments sess {TokenStore} _.
Arguments response {TokenStore} _.
Arguments log {TokenStore} _.

(** *** The dispatch on concrete collaborators

    A small site: the in-memory Token Store, one domain ([system]), a
    router that knows the main page, and an [Accept] parser that splits
    the header at commas and drops parameters and blanks. *)

Fixpoint media_ranges (s : string) : list string :=
  match s with
  | EmptyString => [EmptyString]
  | String c rest =>
      let ranges := media_ranges rest in
      if Ascii.eqb c "," then EmptyString :: ranges
      else if Ascii.eqb c " " then ranges
      else match ranges with
           | r :: others => String c r :: others
           | [] => [String c EmptyString]
           end
  end.

Fixpoint before_semicolon (s : string) : string :=
  match s with
  | EmptyString => EmptyString
  | String c rest => if Ascii.eqb c ";" then EmptyString
                     else String c (before_semicolon rest)
  end.

Definition simple_parse (header : option string) : list MediaType :=
  match header with
  | None => []
  | Some s =>
      map (fun r => let m := before_semicolon r in
                    {| media_type := m; all_types := bool_decide (m = "*/*") |})
          (media_ranges s)
  end.

Definition request_accepting (accept : option string) : Session.Request :=
  {| Session.cookies := ∅;
     Session.headers := from_option (fun a => {["Accept" := a]}) ∅ accept;
     Session.peername := ("127.0.0.1", 4096) |}.

(** C5 on the four headers the specification names, and on a list where
    an entry that decides nothing comes first. *)
Lemma prefer_json_first_match_witness :
  prefer_json (request_accepting (Some "application/json")) simple_parse = true
  /\ prefer_json (request_accepting (Some "text/html")) simple_parse = false
  /\ prefer_json (request_accepting (Some "*/*")) simple_parse = false
  /\ prefer_json (request_accepting None) simple_parse = false
  /\ prefer_json (request_accepting (Some "text/plain, application/json;q=0.9, text/html"))
       simple_parse = true.
Proof.
  split; [|split; [|split; [|split]]].
  - destruct (prefer_json_first_match (request_accepting (Some "application/json"))
                simple_parse) as (_ & _ & Hjson & _).
    apply Hjson; reflexivity.
  - destruct (prefer_json_first_match (request_accepting (Some "text/html"))
                simple_parse) as (_ & _ & _ & Hhtml & _).
    apply Hhtml; reflexivity.
  - destruct (prefer_json_first_match (request_accepting (Some "*/*"))
                simple_parse) as (_ & _ & _ & _ & Hany & _).
    apply Hany; reflexivity.
  - destruct (prefer_json_first_match (request_accepting None) simple_parse)
      as (_ & _ & _ & _ & _ & Hnone).
    apply Hnone; reflexivity.
  - destruct (prefer_json_first_match
                (request_accepting
                   (Some "text/plain, application/json;q=0.9, text/html"))
                simple_parse) as (Hfirst & _).
    apply (Hfirst [{| media_type := "text/plain"; all_types := false |}]
                  {| media_type := "application/json"; all_types := false |}
                  [{| media_type := "text/html"; all_types := false |}]).
    + reflexivity.
    + repeat constructor; discriminate.
    + reflexivity.
Defined.

Definition as_outcome {A} (r : result A) : outcome A :=
  match r with
  | Ok a => Done a
  | Raise _ => Fail "store"
  end.

Definition site_token_update (t : gmap string (Session.token_type * gmap string value))
    (sid : string) (ty : Session.token_type) (ttl : Z) (fields : gmap string value) :=
  let '(r, t') := Session.mem_update t sid ty ttl fields in (as_outcome r, t').

Definition site_token_add (t : gmap string (Session.token_type * gmap string value))
    (ty : Session.token_type) (ttl : Z) (fields : gmap string value) :=
  let '(r, t') := Session.mem_add t ty ttl fields in (as_outcome r, t').

(** The statuses and the template are the site's own choice here. *)
Definition site_http_status (e : user_facing_error) : Z :=
  match e with
  | DomainNotFoundError _ => 404
  | PermissionError _ | PrivilegeError _ | CsrfTokenError => 403
  | InvalidOperationError _ => 400
  | OtherUserFacingError _ _ => 500
  end.

Definition site_error_name (e : user_facing_error) : string :=
  match e with
  | DomainNotFoundError _ => "DomainNotFoundError"
  | PermissionError _ => "PermissionError"
  | PrivilegeError _ => "PrivilegeError"
  | CsrfTokenError => "CsrfTokenError"
  | InvalidOperationError _ => "InvalidOperationError"
  | OtherUserFacingError name _ => name
  end.

Definition site_domain_get (d : string) : outcome (option string) :=
  Done (if bool_decide (d = "system") then Some "system" else None).

Definition site_router_url (name : string) (parts : gmap string string)
  : outcome string :=
  if bool_decide (name = "main") then Done "/"
  else if bool_decide (name = "main_with_domain_id")
       then Done (String.append "/d/" (default "" (parts !! "domain_id")))
       else Fail "KeyError".

Definition site_json_encode (obj : gmap string string) : string :=
  String.append "{error: " (String.append (default "" (obj !! "error")) "}").

Definition site_view (info : gmap string string)
  : @view (gmap string (Session.token_type * gmap string value)) string string string :=
  {| fx := {| sess := Session.state0; response := new_response; log := [] |};
     match_info := info; session := None; user := None;
     locale_context := None; domain_id := None; domain_context := None;
     reverse_url := None; build_path := None; domain := None |}.

Definition site_View_iter (accept : option string)
    (handler : view -> result unit * effects) (info : gmap string string) :=
  View_iter site_token_update site_token_add Session.decimal_date Session.options0
    (request_accepting accept) simple_parse (fun _ => Done None) "guest" "system"
    site_domain_get site_router_url (fun lang _ => Done lang) (fun _ s => s)
    site_http_status (fun _ => "error.html") site_error_name site_json_encode
    (Some "main") (fun _ _ => Done "zh_CN")
    (fun name _ _ _ kw => String.append name (String.append ":" (kw_page_title kw)))
    handler (site_view info).

(** A handler behind a permission check that fails. *)
Definition forbidden_handler
    (v : @view (gmap string (Session.token_type * gmap string value)) string string string)
  : result unit * effects :=
  (Raise (UserFacing (PermissionError 4)), fx v).

(** A handler that loses its store. *)
Definition broken_handler
    (v : @view (gmap string (Session.token_type * gmap string value)) string string string)
  : result unit * effects :=
  (Raise (OtherError "ConnectionFailure"), fx v).

(** C7 on the site: a refused permission for a JSON client, an unknown
    domain for a browser, and a lost store. *)
Lemma View_iter_translates_witness :
  (exists resp v2,
     site_View_iter (Some "application/json") forbidden_handler ∅
     = (Ok (resp, ∅), v2)
     /\ status resp = 403
     /\ content_type resp = Some "application/json"
     /\ text resp = Some "{error: PermissionError}")
  /\ (exists resp v2,
       site_View_iter (Some "text/html") forbidden_handler {["domain_id" := "acmoj"]}
       = (Ok (resp, ∅), v2)
       /\ status resp = 404
       /\ content_type resp = Some "text/html")
  /\ (exists v1,
       site_View_iter (Some "text/html") broken_handler ∅
       = (Raise (OtherError "ConnectionFailure"), v1)).
Proof.
  split; [|split].
  - destruct (View_iter_translates site_token_update site_token_add
                Session.decimal_date Session.options0
                (request_accepting (Some "application/json")) simple_parse
                (fun _ => Done None) "guest" "system"
                site_domain_get site_router_url (fun lang _ => Done lang)
                (fun _ s => s) site_http_status (fun _ => "error.html")
                site_error_name site_json_encode (Some "main")
                (fun _ _ => Done "zh_CN")
                (fun name _ _ _ kw =>
                   String.append name (String.append ":" (kw_page_title kw)))
                forbidden_handler (site_view ∅)) as [Huf _].
    edestruct (Huf (PermissionError 4)) as (resp & v2 & E & _ & Hst & Hjson & _).
    { vm_compute. reflexivity. }
    destruct (Hjson eq_refl) as [Hct Htext].
    exists resp, v2. split; [exact E|]. split; [exact Hst|]. split; [exact Hct|].
    exact Htext.
  - destruct (View_iter_translates site_token_update site_token_add
                Session.decimal_date Session.options0
                (request_accepting (Some "text/html")) simple_parse
                (fun _ => Done None) "guest" "system"
                site_domain_get site_router_url (fun lang _ => Done lang)
                (fun _ s => s) site_http_status (fun _ => "error.html")
                site_error_name site_json_encode (Some "main")
                (fun _ _ => Done "zh_CN")
                (fun name _ _ _ kw =>
                   String.append name (String.append ":" (kw_page_title kw)))
                forbidden_handler (site_view {["domain_id" := "acmoj"]})) as [Huf _].
    edestruct (Huf (DomainNotFoundError "acmoj")) as (resp & v2 & E & _ & Hst & _ & Hhtml).
    { vm_compute. reflexivity. }
    destruct (Hhtml eq_refl) as [Hct _].
    exists resp, v2. split; [exact E|]. split; [exact Hst|]. exact Hct.
  - destruct (View_iter_translates site_token_update site_token_add
                Session.decimal_date Session.options0
                (request_accepting (Some "text/html")) simple_parse
                (fun _ => Done None) "guest" "system"
                site_domain_get site_router_url (fun lang _ => Done lang)
                (fun _ s => s) site_http_status (fun _ => "error.html")
                site_error_name site_json_encode (Some "main")
                (fun _ _ => Done "zh_CN")
                (fun name _ _ _ kw =>
                   String.append name (String.append ":" (kw_page_title kw)))
                broken_handler (site_view ∅)) as [_ Hother].
    eexists. apply Hother.
    + vm_compute. reflexivity.
    + intros e. discriminate.
Defined.

(** C1 on the site: a POST whose form names a list but no operation. *)
Lemma post_missing_operation_witness :
  OperationView_post ∅ [("lid", "3")] (site_view ∅)
  = (Raise (KeyError "operation"), fx (site_view ∅)).
Proof.
  apply (post_missing_operation ∅ [("lid", "3")] (site_view ∅)).
  intros value Hin. apply list_elem_of_singleton in Hin. discriminate.
Defined.

(** The same form with an operation no handler answers to. *)
Example post_unknown_operation_example :
  OperationView_post ∅ [("lid", "3"); ("operation", "set_star")] (site_view ∅)
  = (Raise (UserFacing (InvalidOperationError "set_star")), fx (site_view ∅)).
Proof.
  apply (post_unknown_operation ∅ [("lid", "3")] [] "set_star").
  - intros w Hin. apply list_elem_of_singleton in Hin. discriminate.
  - apply lookup_empty.
Qed.

(** [prepare] on the site, for a request without cookies. *)
Definition site_prepare (info : gmap string string) :=
  prepare site_token_update site_token_add Session.decimal_date Session.options0
    (request_accepting None) (fun _ => Done None) "guest" "system"
    site_domain_get site_router_url (fun lang _ => Done lang)
    (Some "main") (fun _ _ => Done "zh_CN") (site_view info).

Lemma pair_fst {A B} (p : A * B) (a : A) : fst p = a -> p = (a, snd p).
Proof. destruct p as [x y]. cbn. intros ->. reflexivity. Qed.

Lemma site_prepare_system :
  site_prepare {["pid" := "1000"]}
  = (Ok tt, snd (site_prepare {["pid" := "1000"]})).
Proof. apply pair_fst. vm_compute. reflexivity. Qed.

Lemma site_prepare_unknown :
  site_prepare {["domain_id" := "acmoj"]}
  = (Raise (UserFacing (DomainNotFoundError "acmoj")),
     snd (site_prepare {["domain_id" := "acmoj"]})).
Proof. apply pair_fst. vm_compute. reflexivity. Qed.

Lemma prepare_binds_witness :
  let v1 := snd (site_prepare {["pid" := "1000"]}) in
  match_info v1 !! "domain_id" = None
  /\ domain_id v1 = Some "system"
  /\ exists dom, domain v1 = Some dom.
Proof.
  intros v1.
  destruct (prepare_binds site_token_update site_token_add Session.decimal_date
              Session.options0 (request_accepting None) (fun _ => Done None)
              "guest" "system" site_domain_get site_router_url
              (fun lang _ => Done lang) (Some "main") (fun _ _ => Done "zh_CN")
              (site_view {["pid" := "1000"]}) v1 site_prepare_system)
    as (_ & Hmi & Hd & (dom & Hdom & _) & _).
  split; [exact Hmi|]. split; [exact Hd|]. exists dom. exact Hdom.
Defined.

Lemma prepare_domain_not_found_witness :
  site_domain_get "acmoj" = Done None
  /\ domain (snd (site_prepare {["domain_id" := "acmoj"]})) = None.
Proof.
  destruct (prepare_domain_not_found site_token_update site_token_add
              Session.decimal_date Session.options0 (request_accepting None)
              (fun _ => Done None) "guest" "system" site_domain_get
              site_router_url (fun lang _ => Done lang) (Some "main")
              (fun _ _ => Done "zh_CN") (site_view {["domain_id" := "acmoj"]})
              _ _ site_prepare_unknown) as [Huf _].
  destruct (Huf (DomainNotFoundError "acmoj") eq_refl) as (_ & Hnone & Hdom).
  split; [exact Hnone | exact Hdom].
Defined.

Lemma prepare_anonymous_witness :
  let v1 := snd (site_prepare {["pid" := "1000"]}) in
  Session.calls (sess (fx v1)) = []
  /\ session v1 = Some ∅ /\ user v1 = Some "guest".
Proof.
  intros v1.
  destruct (prepare_anonymous site_token_update site_token_add Session.decimal_date
              Session.options0 (request_accepting None) (fun _ => Done None)
              "guest" "system" site_domain_get site_router_url
              (fun lang _ => Done lang) (Some "main") (fun _ _ => Done "zh_CN")
              (site_view {["pid" := "1000"]}) v1 (Ok tt) eq_refl site_prepare_system)
    as (_ & Hcalls & _ & _ & _ & Hguest).
  split; [exact Hcalls|]. exact (Hguest eq_refl).
Defined.

(** On the site a request for the domain [acmoj] gets the same answer
    from a handler that refuses and from one that breaks. *)
Lemma View_iter_unknown_domain_witness :
  site_View_iter (Some "text/html") forbidden_handler {["domain_id" := "acmoj"]}
  = site_View_iter (Some "text/html") broken_handler {["domain_id" := "acmoj"]}.
Proof.
  destruct (View_iter_unknown_domain site_token_update site_token_add
              Session.decimal_date Session.options0
              (request_accepting (Some "text/html")) simple_parse
              (fun _ => Done None) "guest" "system"
              site_domain_get site_router_url (fun lang _ => Done lang)
              (fun _ s => s) site_http_status (fun _ => "error.html")
              site_error_name site_json_encode (Some "main")
              (fun _ _ => Done "zh_CN")
              (fun name _ _ _ kw =>
                 String.append name (String.append ":" (kw_page_title kw)))
              (site_view {["domain_id" := "acmoj"]})) as [Hsame _].
  - reflexivity.
  - unfold site_View_iter. exact (Hsame forbidden_handler broken_handler).
Defined.

(** A handler that reports the keyword arguments it was called with. *)
Definition reporting_handler (kwargs : gmap string string)
    (v : @view (gmap string (Session.token_type * gmap string value)) string string string)
  : result unit * effects :=
  (Raise (OtherError (default "no pid" (kwargs !! "pid"))), fx v).

Lemma site_prepare_routed :
  site_prepare {["domain_id" := "system"; "pid" := "1000"]}
  = (Ok tt, snd (site_prepare {["domain_id" := "system"; "pid" := "1000"]})).
Proof. apply pair_fst. vm_compute. reflexivity. Qed.

Lemma route_argument_merges_witness :
  let v1 := snd (site_prepare {["domain_id" := "system"; "pid" := "1000"]}) in
  exists all,
    route_argument reporting_handler ∅ v1 = reporting_handler all v1
    /\ all !! "domain_id" = None.
Proof.
  intros v1.
  destruct (route_argument_merges site_token_update site_token_add
              Session.decimal_date Session.options0 (request_accepting None)
              (fun _ => Done None) "guest" "system" site_domain_get
              site_router_url (fun lang _ => Done lang) (Some "main")
              (fun _ _ => Done "zh_CN") reporting_handler ∅ v1)
    as (_ & _ & Hafter).
  apply (Hafter (site_view {["domain_id" := "system"; "pid" := "1000"]})).
  - exact site_prepare_routed.
  - apply lookup_empty.
  - intros k [x Hk]. rewrite lookup_empty in Hk. discriminate.
Defined.

Lemma post_passes_other_fields_witness :
  OperationView_post {["post_set_star" := reporting_handler]}
    [("pid", "1000"); ("operation", "set_star"); ("star", "true")] (site_view ∅)
  = reporting_handler (list_to_map [("pid", "1000"); ("star", "true")]) (site_view ∅).
Proof.
  apply (post_passes_other_fields {["post_set_star" := reporting_handler]}
           [("pid", "1000")] [("star", "true")] "set_star" reporting_handler
           (site_view ∅)).
  - intros w Hin. apply list_elem_of_singleton in Hin. discriminate.
  - intros w Hin. apply list_elem_of_singleton in Hin. discriminate.
  - apply lookup_singleton_eq.
Defined.

End View.

(** ** The problem-list controller over the document store *)

Module ProblemList.

Section Controller.
(** [vj4.model.document] as the controller sees it: a store, the two
    operations it calls, and the type tag of problem lists. A document id
    is whatever [document.convert_doc_id] yields. *)
Context {Store DocId : Type}.
Variable document_get :
  Store -> string -> Z -> DocId -> option (gmap string value).
Variable document_set :
  Store -> string -> Z -> DocId -> gmap string value ->
  option (gmap string value) * Store.
Variable TYPE_PROBLEM_LIST : Z.

Definition get (store : Store) (domain_id : string) (lid : DocId)
  : option (gmap string value) :=
  document_get store domain_id TYPE_PROBLEM_LIST lid.

Definition set (store : Store) (domain_id : string) (lid : DocId)
    (kwargs : gmap string value) : option (gmap string value) * Store :=
  document_set store domain_id TYPE_PROBLEM_LIST lid kwargs.

Definition delete (store : Store) (domain_id : string) (lid : DocId)
  : option (gmap string value) * Store :=
  document_set store domain_id TYPE_PROBLEM_LIST lid {["deleted" := VBool true]}.

End Controller.

Section DocumentStore.
Context {DocId : Type} `{Countable DocId}.

(** Modelled from the spec: the document store, [vj4.model.document],
    of which only the calls are in the two files. The specification gives
    its contract: documents are keyed by [(domain_id, type, id)]; [get]
    returns the document under a key, or nothing; [set] assigns the given
    fields of the document under a key and returns the document as it is
    afterwards, or nothing when there is none. *)
Definition store_get
    (store : gmap (string * Z * DocId) (gmap string value))
    (domain_id : string) (doc_type : Z) (doc_id : DocId)
  : option (gmap string value) :=
  store !! (domain_id, doc_type, doc_id).

(** Modelled from the spec: [document.set] of the same store, which
    assigns the fields given and keeps the others. *)
Definition store_set
    (store : gmap (string * Z * DocId) (gmap string value))
    (domain_id : string) (doc_type : Z) (doc_id : DocId)
    (kwargs : gmap string value)
  : option (gmap string value) * gmap (string * Z * DocId) (gmap string value) :=
  match store !! (domain_id, doc_type, doc_id) with
  | Some doc =>
      let doc' := kwargs ∪ doc in
      (Some doc', <[(domain_id, doc_type, doc_id) := doc']> store)
  | None => (None, store)
  end.

Variable TYPE_PROBLEM_LIST : Z.

(** C10. Deleting a problem list is one [document.set] of the single
    field [deleted=True] under the list's key, whatever the document
    module does with it, and [get] is the plain [document.get] under that
    key. On the store of the specification, then, a delete removes no
    document, leaves every other document as it was, and a list that has
    been deleted is still returned by [get], now with [deleted] set. *)
Theorem delete_marks_only
    (store : gmap (string * Z * DocId) (gmap string value))
    (domain_id : string) (lid : DocId) :
  (forall (S : Type) (dget : S -> string -> Z -> DocId -> option (gmap string value))
          (dset : S -> string -> Z -> DocId -> gmap string value ->
                  option (gmap string value) * S) (s : S),
     delete dset TYPE_PROBLEM_LIST s domain_id lid
     = dset s domain_id TYPE_PROBLEM_LIST lid {["deleted" := VBool true]}
     /\ get dget TYPE_PROBLEM_LIST s domain_id lid
        = dget s domain_id TYPE_PROBLEM_LIST lid)
  /\ (let store' := snd (delete store_set TYPE_PROBLEM_LIST store domain_id lid) in
      dom store' = dom store
      /\ (forall key, key <> (domain_id, TYPE_PROBLEM_LIST, lid) ->
          store' !! key = store !! key)
      /\ (forall doc,
            get store_get TYPE_PROBLEM_LIST store domain_id lid = Some doc ->
            get store_get TYPE_PROBLEM_LIST store' domain_id lid
            = Some (<["deleted" := VBool true]> doc))).
Proof.
  split; [intros S dget dset s; split; reflexivity|].
  unfold delete, get, store_set, store_get. cbv zeta.
  destruct (store !! (domain_id, TYPE_PROBLEM_LIST, lid)) as [doc|] eqn:E; cbn [snd].
  - split; [|split].
    + apply set_eq. intros key. rewrite dom_insert, elem_of_union, elem_of_singleton.
      split; [intros [->|Hin]; [apply elem_of_dom; eauto | exact Hin] | auto].
    + intros key Hne. apply lookup_insert_ne. congruence.
    + intros doc' [= <-]. rewrite lookup_insert_eq.
      rewrite <- insert_union_singleton_l. reflexivity.
  - split; [reflexivity|]. split; [reflexivity|]. intros doc' Hd. discriminate.
Qed.

End DocumentStore.

(** C10 on a store with one list: after the delete the list is still
    there, and [get] returns it. *)
Lemma delete_marks_only_witness :
  let store : gmap (string * Z * Z) (gmap string value) :=
    {[("system", 30, 1) := {["title" := VStr "warm-up"]}]} in
  let store' := snd (delete store_set 30 store "system" 1) in
  get store_get 30 store' "system" 1
  = Some (<["deleted" := VBool true]> {["title" := VStr "warm-up"]})
  /\ dom store' = dom store.
Proof.
  intros store store'.
  destruct (delete_marks_only 30 store "system" 1) as (_ & Hdom & _ & Hget).
  split; [|exact Hdom].
  apply Hget. apply lookup_insert_eq.
Defined.

End ProblemList.

(** ** The [sanitize] decorator *)

Module Sanitize.

Section Sanitize.
Context {A : Type}.

(** [func.__annotations__]: the converter declared for each argument. A
    converter may raise. *)
Variable annotations : gmap string (value -> result value).

(** The loop of [wrapped]: the keyword arguments in the order of the
    dictionary, each replaced by its converter's result; the lookup of a
    converter that is not declared is the [KeyError] of
    [func.__annotations__[key]]. *)
Fixpoint convert (kwargs : list (string * value)) : result (list (string * value)) :=
  match kwargs with
  | [] => Ok []
  | (key, v) :: rest =>
      match annotations !! key with
      | None => Raise (KeyError key)
      | Some converter =>
          match converter v with
          | Raise e => Raise e
          | Ok v' =>
              match convert rest with
              | Raise e => Raise e
              | Ok rest' => Ok ((key, v') :: rest')
              end
          end
      end
  end.

Definition sanitize (func : gmap string value -> result A)
    (kwargs : list (string * value)) : result A :=
  match convert kwargs with
  | Raise e => Raise e
  | Ok converted => func (list_to_map converted)
  end.

(** An argument whose converter is declared and accepts it. *)
Definition converts (kv kv' : string * value) : Prop :=
  fst kv' = fst kv
  /\ exists converter, annotations !! fst kv = Some converter
                       /\ converter (snd kv) = Ok (snd kv').

Lemma convert_ok kwargs converted :
  convert kwargs = Ok converted <-> Forall2 converts kwargs converted.
Proof.
  revert converted. induction kwargs as [|[key v] rest IH]; intros converted; cbn.
  - split; [intros [= <-]; constructor | intros H; inversion H; reflexivity].
  - split.
    + destruct (annotations !! key) as [converter|] eqn:Ea; [|discriminate].
      destruct (converter v) as [v'|] eqn:Ec; [|discriminate].
      destruct (convert rest) as [rest'|] eqn:Er; [|discriminate].
      intros [= <-]. constructor; [|apply IH; reflexivity].
      split; [reflexivity|]. exists converter. auto.
    + intros H. inversion H as [|kv kv' l l' Hkv Hrest]; subst.
      destruct kv' as [key' v']. destruct Hkv as [Hk (converter & Ea & Ec)].
      cbn in Hk, Ea, Ec. subst key'. rewrite Ea, Ec.
      apply IH in Hrest. rewrite Hrest. reflexivity.
Qed.

(** When every argument has a converter that accepts it, the handler is
    called with the same argument names, each bound to its converted
    value: nothing is added, dropped or passed through unconverted. *)
Theorem sanitize_converts (func : gmap string value -> result A)
    (kwargs converted : list (string * value)) :
  Forall2 converts kwargs converted ->
  sanitize func kwargs = func (list_to_map converted)
  /\ fst <$> converted = fst <$> kwargs.
Proof.
  intros H. split.
  - unfold sanitize. apply convert_ok in H. rewrite H. reflexivity.
  - induction H as [|kv kv' l l' [Hk _] _ IH]; [reflexivity|].
    cbn. rewrite Hk, IH. reflexivity.
Qed.

(** The first argument that has no converter declared, or whose
    converter raises, ends the call: with the [KeyError] of the
    argument's name, or with the converter's exception; the handler is
    not called, and the arguments after it are not looked at. *)
Theorem sanitize_first_failure (func : gmap string value -> result A)
    (pre post : list (string * value)) (key : string) (v : value) :
  (exists converted, Forall2 converts pre converted) ->
  (annotations !! key = None ->
   sanitize func (pre ++ (key, v) :: post) = Raise (KeyError key))
  /\ (forall converter x,
        annotations !! key = Some converter -> converter v = Raise x ->
        sanitize func (pre ++ (key, v) :: post) = Raise x).
Proof.
  intros [converted Hpre].
  assert (Hrun : forall x, convert ((key, v) :: post) = Raise x ->
                           sanitize func (pre ++ (key, v) :: post) = Raise x).
  { intros x Hx. unfold sanitize.
    assert (Hc : convert (pre ++ (key, v) :: post) = Raise x).
    { clear func. induction Hpre as [|kv kv' l l' Hkv _ IH]; [exact Hx|].
      destruct kv as [k w]. destruct Hkv as [_ (converter & Ea & Ec)].
      cbn in Ea, Ec. cbn [app convert]. rewrite Ea, Ec, IH. reflexivity. }
    rewrite Hc. reflexivity. }
  split.
  - intros Hnone. apply Hrun. cbn. rewrite Hnone. reflexivity.
  - intros converter x Hsome Hx. apply Hrun. cbn. rewrite Hsome, Hx. reflexivity.
Qed.

End Sanitize.

(** Two converters: the text of a number up to nine, and a truth value. *)
Definition to_digit (v : value) : result value :=
  match v with
  | VStr "0" => Ok (VInt 0) | VStr "1" => Ok (VInt 1) | VStr "2" => Ok (VInt 2)
  | VStr "3" => Ok (VInt 3) | VStr "4" => Ok (VInt 4) | VStr "5" => Ok (VInt 5)
  | VStr "6" => Ok (VInt 6) | VStr "7" => Ok (VInt 7) | VStr "8" => Ok (VInt 8)
  | VStr "9" => Ok (VInt 9)
  | _ => Raise (OtherError "ValueError")
  end.

Definition to_bool (v : value) : result value :=
  match v with
  | VStr "" => Ok (VBool false)
  | VStr _ => Ok (VBool true)
  | _ => Raise (TypeError "str expected")
  end.

Definition set_star_annotations : gmap string (value -> result value) :=
  {["lid" := to_digit; "star" := to_bool]}.

Definition show (kwargs : gmap string value) : result (gmap string value) :=
  Ok kwargs.

Lemma sanitize_converts_witness :
  sanitize set_star_annotations show [("lid", VStr "3"); ("star", VStr "1")]
  = Ok (list_to_map [("lid", VInt 3); ("star", VBool true)]).
Proof.
  apply (sanitize_converts set_star_annotations show
           [("lid", VStr "3"); ("star", VStr "1")]
           [("lid", VInt 3); ("star", VBool true)]).
  repeat constructor.
  - exists to_digit. split; reflexivity.
  - exists to_bool. split; reflexivity.
Defined.

Lemma sanitize_first_failure_witness :
  sanitize set_star_annotations show
    [("lid", VStr "3"); ("uid", VStr "7"); ("star", VStr "1")]
  = Raise (KeyError "uid")
  /\ sanitize set_star_annotations show [("lid", VStr "x"); ("star", VStr "1")]
     = Raise (OtherError "ValueError").
Proof.
  split.
  - apply (sanitize_first_failure set_star_annotations show
             [("lid", VStr "3")] [("star", VStr "1")] "uid" (VStr "7")).
    + exists [("lid", VInt 3)]. repeat constructor.
      exists to_digit. split; reflexivity.
    + reflexivity.
  - destruct (sanitize_first_failure set_star_annotations show
                [] [("star", VStr "1")] "lid" (VStr "x")) as [_ Hraise].
    + exists []. constructor.
    + apply (Hraise to_digit); reflexivity.
Defined.

End Sanitize.
